(** * Untitled-AI: the streaming chat session core

    A shallow embedding of the two TypeScript units that make up the chat
    core of the application,

    - [ChatInterface] (services/geminiChat.ts): one logical turn against
      the hosted model, with its retry loop and its private history mirror;
    - [useGeminiChat] (hooks/useGeminiChat.ts): the React hook that owns the
      reactive session state and reacts to the callbacks of a turn,

    followed by the properties of the written specification, each one
    either proved of the code or refuted on a concrete run.

    Strings are Rocq strings, one [ascii] per UTF-16 code unit (so the
    model covers the code units below 256).  The clock ([Date.now()]), the
    random digits of a message id and the behaviour of the remote model are
    inputs of the functions that read them. *)

From Stdlib Require Import ZArith List String Ascii Bool Lia DecimalString DecimalZ.
Import ListNotations.

Local Open Scope string_scope.
Local Open Scope list_scope.
Local Open Scope Z_scope.

(** ** JavaScript primitives the two units rely on *)

Module JS.

(** White space and line terminators of ECMAScript that fit in one code
    unit below 256: TAB, LF, VT, FF, CR, SP and NBSP. *)
Definition isWhiteSpace (c : ascii) : bool :=
  let n := nat_of_ascii c in
  ((9 <=? n)%nat && (n <=? 13)%nat) || (n =? 32)%nat || (n =? 160)%nat.

Fixpoint trimStart (s : string) : string :=
  match s with
  | EmptyString => EmptyString
  | String c r => if isWhiteSpace c then trimStart r else s
  end.

Fixpoint trimEnd (s : string) : string :=
  match s with
  | EmptyString => EmptyString
  | String c r =>
      match trimEnd r with
      | EmptyString => if isWhiteSpace c then EmptyString else String c EmptyString
      | r' => String c r'
      end
  end.

(** [String.prototype.trim]. *)
Definition trim (s : string) : string := trimEnd (trimStart s).

(** Truthiness of a string: only the empty string is falsy. *)
Definition truthy (s : string) : bool := negb (s =? "")%string.

(** [x || d] where [x] is a string or [undefined]. *)
Definition orElse (x : option string) (d : string) : string :=
  match x with
  | Some s => if truthy s then s else d
  | None => d
  end.

(** [n || d] where [n] is a number or [undefined]. *)
Definition orElseZ (x : option Z) (d : Z) : Z :=
  match x with
  | Some n => if n =? 0 then d else n
  | None => d
  end.

(** Template interpolation of an integer. *)
Definition show (z : Z) : string := NilZero.string_of_int (Z.to_int z).

(** [Array.prototype.slice(start, end)] with the relative indices of
    ECMAScript: a negative index counts from the end, and both ends are
    clamped to the array. *)
Definition rel (len i : Z) : Z :=
  if i <? 0 then Z.max (len + i) 0 else Z.min i len.

Definition slice {A} (l : list A) (start stop : Z) : list A :=
  let len := Z.of_nat (List.length l) in
  let k := rel len start in
  let final := rel len stop in
  firstn (Z.to_nat (final - k)) (skipn (Z.to_nat k) l).

(** [slice(start)]: up to the end of the array. *)
Definition sliceFrom {A} (l : list A) (start : Z) : list A :=
  slice l start (Z.of_nat (List.length l)).

(** [Array.prototype.findIndex], [-1] when nothing matches. *)
Fixpoint findIndexFrom {A} (p : A -> bool) (l : list A) (i : Z) : Z :=
  match l with
  | [] => -1
  | x :: r => if p x then i else findIndexFrom p r (i + 1)
  end.

Definition findIndex {A} (p : A -> bool) (l : list A) : Z :=
  findIndexFrom p l 0.

(** Truthiness of an optional object: [undefined] and [null] are falsy. *)
Definition defined {A} (x : option A) : bool :=
  match x with
  | Some _ => true
  | None => false
  end.

(** An [Error] object: the two fields the code reads. *)
Record Error := mkError { name : string; message : string }.

End JS.

(** ** Messages and responses (geminiChat.ts) *)

Inductive Role := user | assistant | system.

Definition Role_eqb (a b : Role) : bool :=
  match a, b with
  | user, user | assistant, assistant | system, system => true
  | _, _ => false
  end.

Record ChatMessage := mkMessage {
  role : Role;
  content : string;
  timestamp : Z;
  messageId : string
}.

Record ChatResponse := mkResponse {
  success : bool;
  r_message : option string;
  r_messageId : option string;
  r_error : option string;
  r_processTime : option Z
}.

(** Which of the optional callbacks a caller supplied. *)
Record StreamCallbacks := mkCallbacks {
  has_onTokenReceived : bool;
  has_onProgress : bool;
  has_onComplete : bool;
  has_onError : bool
}.

Record SendMessageOptions := mkOptions {
  o_role : Role;
  o_content : string;
  o_stream : bool;
  o_callbacks : option StreamCallbacks
}.

(** What one call into the SDK chat session does: the chunks it yields, in
    order, and then either a normal end or a thrown error.  A call that
    throws before anything is yielded has no chunks.  For the blocking
    call the response text is the concatenation of the chunks.  [ended]
    is the clock when the call is over and [digits] the random digits
    drawn for the id of the reply. *)
Record Attempt := mkAttempt {
  chunks : list string;
  fault : option JS.Error;
  ended : Z;
  digits : string
}.

(** The remote model, as seen by one [sendMessage]: the outcome of its
    n-th call into the SDK, counted from 0. *)
Definition Transport := nat -> Attempt.

(** What a run of [ChatInterface.sendMessage] does to the outside, in
    order. *)
Inductive Effect :=
| Call (stream : bool) (text : string)
| OnTokenReceived (token : string)
| OnProgress (progress : Z)
| OnComplete (fullMessage : string)
| OnError (error : JS.Error)
| ConsoleError (error : JS.Error)
| Delay (ms : Z).

(** What is read off a run: how many calls went to the SDK, the waits
    between them, and the payloads of the callbacks, each in order. *)
Module Trace.

Definition calls (tr : list Effect) : nat :=
  List.length (filter (fun e => match e with Call _ _ => true | _ => false end) tr).

Definition delays (tr : list Effect) : list Z :=
  flat_map (fun e => match e with Delay ms => [ms] | _ => [] end) tr.

Definition tokens (tr : list Effect) : list string :=
  flat_map (fun e => match e with OnTokenReceived s => [s] | _ => [] end) tr.

Definition completions (tr : list Effect) : list string :=
  flat_map (fun e => match e with OnComplete s => [s] | _ => [] end) tr.

Definition errors (tr : list Effect) : list JS.Error :=
  flat_map (fun e => match e with OnError x => [x] | _ => [] end) tr.

End Trace.

(** ** ChatInterface (services/geminiChat.ts) *)

Module ChatInterface.

(** The fields of an instance that [sendMessage] and the history
    operations read or write.  [chat] is the history the SDK session was
    last started with by [initializeChat]. *)
Record t := mk {
  messageHistory : bool;
  retries : Z;
  fallbackMessage : string;
  conversationHistory : list ChatMessage;
  chat : list (string * string)
}.

Definition setHistory (c : t) (h : list ChatMessage) : t :=
  mk (messageHistory c) (retries c) (fallbackMessage c) h (chat c).

(** [this.conversationHistory.push(m)]. *)
Definition push (c : t) (m : ChatMessage) : t :=
  setHistory c (conversationHistory c ++ [m]).

Definition initializeChat (c : t) : t :=
  let history :=
    if messageHistory c
    then map (fun msg =>
                (match role msg with assistant => "model" | _ => "user" end,
                 content msg))
             (conversationHistory c)
    else [] in
  mk (messageHistory c) (retries c) (fallbackMessage c)
     (conversationHistory c) history.

(** The constructor, for the three configuration fields that matter. *)
Definition new (messageHistory : bool) (retries : Z) (fallbackMessage : string) : t :=
  initializeChat (mk messageHistory retries fallbackMessage [] []).

Definition generateMessageId (now : Z) (digits : string) : string :=
  ("msg_" ++ JS.show now ++ "_" ++ digits)%string.

(** The result of a step of a run: the instance, the effects so far, and
    what the step returned. *)
Definition Run (A : Type) : Type := t * list Effect * A.

(** [options.callbacks?.f] is there. *)
Definition supplied (options : SendMessageOptions)
    (f : StreamCallbacks -> bool) : bool :=
  match o_callbacks options with
  | Some cb => f cb
  | None => false
  end.

Definition fire (present : bool) (e : Effect) : list Effect :=
  if present then [e] else [].

(** The [for await] loop over the stream: every chunk is added to the
    accumulator and to the progress count, then handed to the callbacks. *)
Fixpoint consume (options : SendMessageOptions) (stream : list string)
    (fullMessage : string) (progress : Z) : list Effect * string :=
  match stream with
  | [] => ([], fullMessage)
  | chunkText :: rest =>
      let fullMessage := (fullMessage ++ chunkText)%string in
      let progress := progress + Z.of_nat (String.length chunkText) in
      let '(later, final) := consume options rest fullMessage progress in
      (fire (supplied options has_onTokenReceived) (OnTokenReceived chunkText)
         ++ fire (supplied options has_onProgress) (OnProgress progress)
         ++ later,
       final)
  end.

(** A returned response or a thrown error. *)
Definition Outcome : Type := ChatResponse + JS.Error.

Definition handleStreamingResponse (c : t) (options : SendMessageOptions)
    (messageId : string) (startTime : Z) (a : Attempt) : Run Outcome :=
  let '(told, fullMessage) := consume options (chunks a) "" 0 in
  match fault a with
  | Some error =>
      (c,
       Call true (o_content options) :: told
         ++ fire (supplied options has_onError) (OnError error),
       inr error)
  | None =>
      let processTime := ended a - startTime in
      let c' :=
        if messageHistory c
        then push c (mkMessage assistant fullMessage (ended a)
                       (generateMessageId (ended a) (digits a)))
        else c in
      (c',
       Call true (o_content options) :: told
         ++ fire (supplied options has_onComplete) (OnComplete fullMessage),
       inl (mkResponse true (Some fullMessage) (Some messageId) None
              (Some processTime)))
  end.

Definition handleRegularResponse (c : t) (options : SendMessageOptions)
    (messageId : string) (startTime : Z) (a : Attempt) : Run Outcome :=
  match fault a with
  | Some error => (c, [Call false (o_content options)], inr error)
  | None =>
      let responseText := String.concat "" (chunks a) in
      let processTime := ended a - startTime in
      let c' :=
        if messageHistory c
        then push c (mkMessage assistant responseText (ended a)
                       (generateMessageId (ended a) (digits a)))
        else c in
      (c', [Call false (o_content options)],
       inl (mkResponse true (Some responseText) (Some messageId) None
              (Some processTime)))
  end.

(** The error is logged; its classification is a local that nothing
    reads, and the response carries the fallback text. *)
Definition handleError (c : t) (error : JS.Error) (messageId : string)
    : list Effect * ChatResponse :=
  ([ConsoleError error],
   mkResponse false None (Some messageId) (Some (fallbackMessage c)) None).

(** The response after the loop, when its guard fails. *)
Definition exhausted (c : t) (messageId : string) : ChatResponse :=
  mkResponse false None (Some messageId) (Some (fallbackMessage c)) None.

(** The body of the [try]: the streaming path needs both the flag and
    the callbacks. *)
Definition tryOnce (c : t) (options : SendMessageOptions)
    (messageId : string) (startTime : Z) (a : Attempt) : Run Outcome :=
  if o_stream options && JS.defined (o_callbacks options)
  then handleStreamingResponse c options messageId startTime a
  else handleRegularResponse c options messageId startTime a.

(** The [while (retries < this.errorHandling.retries)] loop.  [left] is
    the number of iterations the guard still allows, that is
    [errorHandling.retries - retries]: the counter goes up by one in every
    iteration that does not return.  The n-th attempt of the call is the
    n-th call into the SDK. *)
Fixpoint attempts (left : nat) (retries : Z) (c : t)
    (options : SendMessageOptions) (messageId : string) (startTime : Z)
    (remote : Transport) : Run ChatResponse :=
  match left with
  | O => (c, [], exhausted c messageId)
  | S left' =>
      let '(c1, done, result) :=
        tryOnce c options messageId startTime (remote (Z.to_nat retries)) in
      match result with
      | inl response => (c1, done, response)
      | inr error =>
          let retries := retries + 1 in
          if retries >=? ChatInterface.retries c1
          then
            let '(logged, response) := handleError c1 error messageId in
            (c1, done ++ logged, response)
          else
            let '(c2, later, response) :=
              attempts left' retries c1 options messageId startTime remote in
            (c2, done ++ Delay (1000 * retries) :: later, response)
      end
  end.

Definition sendMessage (c : t) (options : SendMessageOptions)
    (now : Z) (digits : string) (remote : Transport) : Run ChatResponse :=
  let startTime := now in
  let messageId := generateMessageId now digits in
  let c0 :=
    if messageHistory c
    then push c (mkMessage (o_role options) (o_content options) now messageId)
    else c in
  attempts (Z.to_nat (retries c0 - 0)) 0 c0 options messageId startTime remote.

Definition getConversationHistory (c : t) : list ChatMessage :=
  conversationHistory c.

Definition clearHistory (c : t) : t :=
  initializeChat (setHistory c []).

Definition trimHistory (c : t) (maxMessages : Z) : t :=
  if Z.of_nat (List.length (conversationHistory c)) >? maxMessages
  then initializeChat
         (setHistory c (JS.sliceFrom (conversationHistory c) (- maxMessages)))
  else c.

End ChatInterface.

(** ** useGeminiChat (hooks/useGeminiChat.ts) *)

Module UseGeminiChat.

(** The options of the hook that the chat core reads. *)
Record UseGeminiChatOptions := mkHookOptions {
  enableStreaming : option bool;
  maxHistoryMessages : option Z
}.

Record ChatState := mkState {
  messages : list ChatMessage;
  isLoading : bool;
  error : option string;
  isStreaming : bool;
  currentStreamingMessage : string
}.

Record AbortController := mkController { aborted : bool }.

(** The reactive state together with the three refs of the hook. *)
Record Hook := mkHook {
  state : ChatState;
  chatRef : option ChatInterface.t;
  streamingMessageRef : string;
  abortControllerRef : option AbortController
}.

Definition initialState : ChatState := mkState [] false None false "".

Definition initial : Hook := mkHook initialState None "" None.

(** The retry policy the hook constructs its client with. *)
Definition configuredRetries : Z := 3.

Definition configuredFallback : string :=
  "I apologize, but I'm having trouble processing your request. Please try again or rephrase your question.".

Definition setState (h : Hook) (f : ChatState -> ChatState) : Hook :=
  mkHook (f (state h)) (chatRef h) (streamingMessageRef h)
    (abortControllerRef h).

Definition setChat (h : Hook) (c : option ChatInterface.t) : Hook :=
  mkHook (state h) c (streamingMessageRef h) (abortControllerRef h).

Definition setStreamingMessage (h : Hook) (s : string) : Hook :=
  mkHook (state h) (chatRef h) s (abortControllerRef h).

Definition setAbortController (h : Hook) (a : option AbortController) : Hook :=
  mkHook (state h) (chatRef h) (streamingMessageRef h) a.

Section Hook.

Variable options : UseGeminiChatOptions.

(** [options.enableStreaming || false]. *)
Definition streaming : bool :=
  match enableStreaming options with
  | Some b => b
  | None => false
  end.

Definition initializeChat (h : Hook) : Hook :=
  match chatRef h with
  | None =>
      setChat h (Some (ChatInterface.new true configuredRetries configuredFallback))
  | Some _ => h
  end.

(** [abort()] marks the controller held by the ref, and the ref is then
    emptied: nothing else holds the controller. *)
Definition stopStreaming (h : Hook) : Hook :=
  let h :=
    match abortControllerRef h with
    | Some _ => setAbortController h None
    | None => h
    end in
  setState h (fun prev =>
    mkState (messages prev) false (error prev) false "").

(** The callbacks of one call, as the hook wires them. *)
Definition onTokenReceived (h : Hook) (token : string) : Hook :=
  let h := setStreamingMessage h (streamingMessageRef h ++ token)%string in
  setState h (fun prev =>
    mkState (messages prev) (isLoading prev) (error prev) (isStreaming prev)
      (streamingMessageRef h)).

Definition onProgress (h : Hook) (progress : Z) : Hook := h.

Definition onComplete (h : Hook) (fullMessage : string) (now : Z) : Hook :=
  let assistantMessage :=
    mkMessage assistant fullMessage now ("assistant_" ++ JS.show now)%string in
  let h := setState h (fun prev =>
    mkState (messages prev ++ [assistantMessage]) false (error prev) false "") in
  setAbortController h None.

Definition onError (h : Hook) (err : JS.Error) : Hook :=
  let h :=
    if negb (JS.name err =? "AbortError")%string
    then setState h (fun prev =>
           mkState (messages prev) false (Some (JS.message err)) false "")
    else h in
  setAbortController h None.

Definition callbacks : StreamCallbacks := mkCallbacks true true true true.

(** [sendMessage] up to its [await]: the new hook and the call it issues
    to the client, if it issues one. *)
Definition sendMessage_issue (h : Hook) (content : string) (now : Z)
    : Hook * option SendMessageOptions :=
  if negb (JS.truthy (JS.trim content)) then (h, None)
  else
    let h := initializeChat h in
    let userMessage :=
      mkMessage user content now ("user_" ++ JS.show now)%string in
    let h := setState h (fun prev =>
      mkState (messages prev ++ [userMessage]) true None streaming "") in
    let h := setStreamingMessage h "" in
    let h := setAbortController h (Some (mkController false)) in
    (h, Some (mkOptions user content streaming
                (if streaming then Some callbacks else None))).

(** [sendMessage] after its [await], when the client resolved. *)
Definition sendMessage_resolved (h : Hook) (response : ChatResponse) (now : Z)
    : Hook :=
  if negb streaming && success response then
    let assistantMessage :=
      mkMessage assistant (JS.orElse (r_message response) "") now
        (JS.orElse (r_messageId response) ("assistant_" ++ JS.show now)%string) in
    setState h (fun prev =>
      mkState (messages prev ++ [assistantMessage]) false (error prev)
        (isStreaming prev) (currentStreamingMessage prev))
  else if negb (success response) then
    setState h (fun prev =>
      mkState (messages prev) false
        (Some (JS.orElse (r_error response) "Unknown error occurred"))
        false (currentStreamingMessage prev))
  else h.

(** The [catch] of [sendMessage], when the client rejected. *)
Definition sendMessage_rejected (h : Hook) (err : JS.Error) : Hook :=
  if negb (JS.name err =? "AbortError")%string
  then setState h (fun prev =>
         mkState (messages prev) false (Some (JS.message err)) false "")
  else h.

(** Delivery of one effect of the client to the hook: only the four
    callbacks reach it.  [now] is the clock when it is delivered. *)
Definition deliver (now : Z) (h : Hook) (e : Effect) : Hook :=
  match e with
  | OnTokenReceived token => onTokenReceived h token
  | OnProgress progress => onProgress h progress
  | OnComplete fullMessage => onComplete h fullMessage now
  | OnError err => onError h err
  | Call _ _ | ConsoleError _ | Delay _ => h
  end.

(** A whole [sendMessage], from the call to the end of its continuation,
    with nothing else happening in between: [now] is the clock at the
    call, [remote] what the model does, [finished] the clock when the
    callbacks of the end of the turn and the continuation run. *)
Definition sendMessage (h : Hook) (content : string) (now : Z)
    (digits : string) (remote : Transport) (finished : Z) : Hook :=
  match sendMessage_issue h content now with
  | (h1, Some call) =>
      match chatRef h1 with
      | Some client =>
          let '(client', trace, response) :=
            ChatInterface.sendMessage client call now digits remote in
          let h2 := fold_left (deliver finished) trace (setChat h1 (Some client')) in
          sendMessage_resolved h2 response finished
      | None => h1
      end
  | (h1, None) => h1
  end.

Definition clearConversation (h : Hook) : Hook :=
  let h := setState h (fun _ => mkState [] false None false "") in
  match chatRef h with
  | Some client => setChat h (Some (ChatInterface.clearHistory client))
  | None => h
  end.

Definition isUser (msg : ChatMessage) : bool := Role_eqb (role msg) user.

(** [state.messages.slice().reverse().find(msg => msg.role === 'user')]. *)
Definition lastUserMessage (h : Hook) : option ChatMessage :=
  find isUser (rev (messages (state h))).

(** [retryLastMessage] up to the [await] of the [sendMessage] it calls. *)
Definition retryLastMessage_issue (h : Hook) (now : Z)
    : Hook * option SendMessageOptions :=
  match lastUserMessage h with
  | Some last =>
      let lastUserIndex :=
        JS.findIndex (fun msg => (messageId msg =? messageId last)%string)
          (messages (state h)) in
      let h := setState h (fun prev =>
        mkState (JS.slice (messages prev) 0 (lastUserIndex + 1))
          (isLoading prev) None (isStreaming prev)
          (currentStreamingMessage prev)) in
      sendMessage_issue h (content last) now
  | None => (h, None)
  end.

(** A whole [retryLastMessage], as [sendMessage] above. *)
Definition retryLastMessage (h : Hook) (now : Z) (digits : string)
    (remote : Transport) (finished : Z) : Hook :=
  match lastUserMessage h with
  | Some last =>
      let lastUserIndex :=
        JS.findIndex (fun msg => (messageId msg =? messageId last)%string)
          (messages (state h)) in
      let h := setState h (fun prev =>
        mkState (JS.slice (messages prev) 0 (lastUserIndex + 1))
          (isLoading prev) None (isStreaming prev)
          (currentStreamingMessage prev)) in
      sendMessage h (content last) now digits remote finished
  | None => h
  end.

Definition trimHistory (h : Hook) : Hook :=
  let maxMessages := JS.orElseZ (maxHistoryMessages options) 100 in
  if Z.of_nat (List.length (messages (state h))) >? maxMessages then
    let h := setState h (fun prev =>
      mkState (JS.sliceFrom (messages prev) (- maxMessages))
        (isLoading prev) (error prev) (isStreaming prev)
        (currentStreamingMessage prev)) in
    match chatRef h with
    | Some client =>
        setChat h (Some (ChatInterface.trimHistory client maxMessages))
    | None => h
    end
  else h.

(** What can happen to the hook, one event at a time: the operations the
    interface calls, and the callbacks and continuations of the calls in
    flight, in whatever order they arrive. *)
Inductive Action :=
| Send (content : string) (now : Z)
| Token (token : string)
| Progress (progress : Z)
| Complete (fullMessage : string) (now : Z)
| Failed (err : JS.Error)
| Resolved (response : ChatResponse) (now : Z)
| Rejected (err : JS.Error)
| Stop
| Clear
| Retry (now : Z)
| Trim.

Definition step (h : Hook) (a : Action) : Hook :=
  match a with
  | Send content now => fst (sendMessage_issue h content now)
  | Token token => onTokenReceived h token
  | Progress progress => onProgress h progress
  | Complete fullMessage now => onComplete h fullMessage now
  | Failed err => onError h err
  | Resolved response now => sendMessage_resolved h response now
  | Rejected err => sendMessage_rejected h err
  | Stop => stopStreaming h
  | Clear => clearConversation h
  | Retry now => fst (retryLastMessage_issue h now)
  | Trim => trimHistory h
  end.

Definition run (h : Hook) (actions : list Action) : Hook :=
  fold_left step actions h.

End Hook.

End UseGeminiChat.

(** ** PDFGenerationService (services/pdfGenerationService.ts)

    The document library is outside the repository: the height of a
    page and the lines a message is split into are inputs.  Lengths are
    whole millimetres, as the default options and the two page formats
    the service spells out are. *)

Module PDFGenerationService.

(** [String.prototype.toLowerCase] on one code unit below 256: the
    letters A-Z, and the capital letters of Latin-1 (all of U+00C0 to
    U+00DE but the multiplication sign). *)
Definition toLowerCaseUnit (c : ascii) : ascii :=
  let n := nat_of_ascii c in
  if ((65 <=? n)%nat && (n <=? 90)%nat)
     || ((192 <=? n)%nat && (n <=? 222)%nat && negb (n =? 215)%nat)
  then ascii_of_nat (n + 32)
  else c.

Fixpoint mapUnits (f : ascii -> ascii) (s : string) : string :=
  match s with
  | EmptyString => EmptyString
  | String c r => String (f c) (mapUnits f r)
  end.

Definition toLowerCase (s : string) : string := mapUnits toLowerCaseUnit s.

(** What the class [[a-z0-9]] matches under the [i] flag: a digit or a
    letter of either case. *)
Definition isAlphanumeric (c : ascii) : bool :=
  let n := nat_of_ascii c in
  ((48 <=? n)%nat && (n <=? 57)%nat)
  || ((65 <=? n)%nat && (n <=? 90)%nat)
  || ((97 <=? n)%nat && (n <=? 122)%nat).

(** [title.replace(/[^a-z0-9]/gi, '-')]. *)
Definition replaceOthers (title : string) : string :=
  mapUnits (fun c => if isAlphanumeric c then c else "-"%char) title.

(** [s.split(sep)[0]] for a separator of one code unit. *)
Fixpoint firstField (sep : ascii) (s : string) : string :=
  match s with
  | EmptyString => EmptyString
  | String c r => if Ascii.eqb c sep then EmptyString else String c (firstField sep r)
  end.

(** [generateFilename]; [iso] is [new Date().toISOString()]. *)
Definition generateFilename (title : string) (iso : string) : string :=
  let cleanTitle := toLowerCase (replaceOthers title) in
  let timestamp := firstField "T"%char iso in
  (cleanTitle ++ "-" ++ timestamp ++ ".pdf")%string.

(** [Math.ceil(a / b)] for whole [a] and positive whole [b]. *)
Definition ceilDiv (a b : Z) : Z := - ((- a) / b).

Record Estimate := mkEstimate {
  estimatedPages : Z;
  estimatedSize : string
}.

Definition estimatePDFSize (messages : list ChatMessage) : Estimate :=
  let avgCharsPerPage := 2500 in
  let totalChars :=
    fold_left (fun sum msg => sum + Z.of_nat (String.length (content msg)))
      messages 0 in
  let estimatedPages := ceilDiv totalChars avgCharsPerPage in
  let estimatedSize :=
    (JS.show (estimatedPages * 30) ++ "KB - "
       ++ JS.show (estimatedPages * 60) ++ "KB")%string in
  mkEstimate estimatedPages estimatedSize.





(** [filename || this.generateFilename(title)]. *)
Definition finalFilename (filename : option string) (title iso : string)
    : string :=
  JS.orElse filename (generateFilename title iso).

End PDFGenerationService.

(** * Vocabulary of the properties

    What the statements below say about a run, an attempt, a call and a
    turn, and the runs used as examples. *)

(** ** Runs and attempts *)

Module Attempts.

Import ChatInterface.

(** The three parts of a run. *)
Definition client_of {A} (r : Run A) : t := fst (fst r).
Definition trace_of {A} (r : Run A) : list Effect := snd (fst r).
Definition result_of {A} (r : Run A) : A := snd r.

(** The configuration of an instance: what no operation writes. *)
Definition sameConfig (c c' : t) : Prop :=
  messageHistory c' = messageHistory c /\
  retries c' = retries c /\
  fallbackMessage c' = fallbackMessage c.

(** The text an attempt that ends normally produces, and the entry its
    reply makes in the history mirror. *)
Definition textOf (a : Attempt) : string := String.concat "" (chunks a).

Definition replyOf (a : Attempt) : ChatMessage :=
  mkMessage assistant (textOf a) (ended a)
    (generateMessageId (ended a) (digits a)).

(** With the reply recorded, if the instance keeps a history. *)
Definition recorded (c : t) (m : ChatMessage) : t :=
  if messageHistory c then push c m else c.

(** Whether a call takes the streaming path and reaches callback [f]. *)
Definition reaches (options : SendMessageOptions)
    (f : StreamCallbacks -> bool) : bool :=
  o_stream options && supplied options f.

(** The waits of a call that made [n] attempts after having already
    counted [retries] failures: one before each attempt but the first. *)
Definition backoff (retries : Z) (n : nat) : list Z :=
  map (fun k => 1000 * (retries + Z.of_nat k)) (seq 1 (n - 1)).

End Attempts.

(** ** Calls of the client *)

Module Call.

Import ChatInterface Attempts.

(** The entry [sendMessage] makes for the message it is given. *)
Definition entryOf (options : SendMessageOptions) (now : Z) (digits : string)
    : ChatMessage :=
  mkMessage (o_role options) (o_content options) now
    (generateMessageId now digits).

(** The response of a call that succeeded with attempt [a]. *)
Definition answer (a : Attempt) (now : Z) (digits : string) : ChatResponse :=
  mkResponse true (Some (textOf a)) (Some (generateMessageId now digits)) None
    (Some (ended a - now)).

(** The attempts the policy allows. *)
Definition allowed (c : t) : nat := Z.to_nat (retries c).

(** A call whose attempts all throw. *)
Definition FailsThroughout (c : t) (remote : Transport) : Prop :=
  forall n, (n < allowed c)%nat -> fault (remote n) <> None.

(** A call whose attempt [j] is the first that ends normally. *)
Definition SucceedsAt (c : t) (remote : Transport) (j : nat) : Prop :=
  (j < allowed c)%nat /\
  (forall i, (i < j)%nat -> fault (remote i) <> None) /\
  fault (remote j) = None.

End Call.

(** ** Runs used as examples *)

Module Sample.

Definition boom : JS.Error := JS.mkError "Error" "network down".

Definition client : ChatInterface.t := ChatInterface.new true 3 "Please try again.".

Definition idle : ChatInterface.t := ChatInterface.new true 0 "Please try again.".

Definition streamed : SendMessageOptions :=
  mkOptions user "hi" true (Some (mkCallbacks true true true true)).

(** A model that is down: every call yields one chunk and throws. *)
Definition down : Transport :=
  fun _ => mkAttempt ["x"] (Some boom) 5 "r1".

(** A model whose first call throws after one chunk and whose later
    calls end normally. *)
Definition flaky : Transport :=
  fun n =>
    match n with
    | O => mkAttempt ["ab"] (Some boom) 5 "r1"
    | S _ => mkAttempt ["c"; "d"] None 9 "r2"
    end.

(** A model that answers at once. *)
Definition up : Transport :=
  fun _ => mkAttempt ["c"; "d"] None 9 "r2".

(** The hook with streaming on, and with the options left out. *)
Definition live : UseGeminiChat.UseGeminiChatOptions :=
  UseGeminiChat.mkHookOptions (Some true) None.

Definition blocking : UseGeminiChat.UseGeminiChatOptions :=
  UseGeminiChat.mkHookOptions None None.

End Sample.

(** ** Turns of the hook *)

Module Session.

Import UseGeminiChat.

(** The assistant message the completion callback commits. *)
Definition committed (fullMessage : string) (now : Z) : ChatMessage :=
  mkMessage assistant fullMessage now ("assistant_" ++ JS.show now)%string.

(** The user message [sendMessage] commits. *)
Definition submitted (content : string) (now : Z) : ChatMessage :=
  mkMessage user content now ("user_" ++ JS.show now)%string.

(** The client of a hook, when it has one, is the one [initializeChat]
    made: it keeps a history, allows three attempts and falls back to
    the configured text. *)
Definition OwnClient (h : Hook) : Prop :=
  match chatRef h with
  | Some c =>
      ChatInterface.messageHistory c = true /\
      ChatInterface.retries c = configuredRetries /\
      ChatInterface.fallbackMessage c = configuredFallback
  | None => True
  end.

(** The call a non-blank [sendMessage] issues. *)
Definition callOf (options : UseGeminiChatOptions) (content : string)
    : SendMessageOptions :=
  mkOptions user content (streaming options)
    (if streaming options then Some callbacks else None).

(** The client a [sendMessage] talks to. *)
Definition clientOf (h : Hook) : ChatInterface.t :=
  match chatRef h with
  | Some c => c
  | None => ChatInterface.new true configuredRetries configuredFallback
  end.

(** The run of the client inside a [sendMessage] of the hook. *)
Definition runOf (options : UseGeminiChatOptions) (h : Hook) (content : string)
    (now : Z) (digits : string) (remote : Transport)
    : ChatInterface.Run ChatResponse :=
  ChatInterface.sendMessage (clientOf h) (callOf options content) now digits
    remote.

(** The flags go together: streaming is flagged exactly when the hook
    streams and a request is flagged in flight. *)
Definition FlagsTogether (options : UseGeminiChatOptions) (s : ChatState)
    : Prop :=
  isStreaming s = streaming options && isLoading s.

(** The turn of the examples that fails: the model is down. *)
Definition failedTurn : Hook :=
  sendMessage Sample.live initial "hi" 1 "r0" Sample.down 20.

End Session.

(** ** Further readings of a run *)

Module Observed.

(** The payloads of the progress callback, in order. *)
Definition progressOf (e : Effect) : list Z :=
  match e with
  | OnProgress p => [p]
  | _ => []
  end.

Definition progresses (tr : list Effect) : list Z := flat_map progressOf tr.

(** The callbacks among the effects of a run. *)
Definition callbackOf (e : Effect) : list Effect :=
  match e with
  | OnTokenReceived _ | OnProgress _ | OnComplete _ | OnError _ => [e]
  | Call _ _ | ConsoleError _ | Delay _ => []
  end.

Definition callbacksOf (tr : list Effect) : list Effect :=
  flat_map callbackOf tr.

Definition errorOf (e : Effect) : list JS.Error :=
  match e with
  | OnError x => [x]
  | _ => []
  end.

(** The lengths of the text after each chunk, counted on from [sofar]. *)
Fixpoint runningLengths (sofar : Z) (stream : list string) : list Z :=
  match stream with
  | [] => []
  | chunkText :: rest =>
      (sofar + Z.of_nat (String.length chunkText))
        :: runningLengths (sofar + Z.of_nat (String.length chunkText)) rest
  end.

(** The effects of one attempt: they depend on the options of the call
    and on what the model does, not on the instance. *)
Definition stepsOf (options : SendMessageOptions) (a : Attempt) : list Effect :=
  snd (fst (ChatInterface.tryOnce (ChatInterface.new false 0 "") options "" 0 a)).

(** What [handleError] logs for an attempt that threw. *)
Definition loggedOf (a : Attempt) : list Effect :=
  match fault a with
  | Some e => [ConsoleError e]
  | None => []
  end.

(** The effects of a call of [n] attempts that all throw, laid out in
    time: the effects of each attempt; after the k-th, when another
    attempt follows, the wait of [1000 * k] ms; and after the last, the
    log of [handleError]. *)
Definition failedLayout (options : SendMessageOptions) (remote : Transport)
    (n : nat) : list Effect :=
  flat_map
    (fun i =>
       stepsOf options (remote i)
         ++ (if (S i <? n)%nat
             then [Delay (1000 * Z.of_nat (S i))]
             else loggedOf (remote i)))
    (seq 0 n).

(** The errors the first [n] attempts of a model throw. *)
Definition thrownBy (remote : Transport) (n : nat) : list JS.Error :=
  flat_map (fun i => match fault (remote i) with
                     | Some e => [e]
                     | None => []
                     end) (seq 0 n).

(** The last error of a list that is not an abort, if there is one. *)
Definition lastShown (errs : list JS.Error) : option JS.Error :=
  find (fun e => negb (JS.name e =? "AbortError")%string) (rev errs).

(** A message as it reads: who said what. *)
Definition shown (m : ChatMessage) : Role * string := (role m, content m).

(** The last [n] entries of a list. *)
Definition lastN {A} (n : nat) (l : list A) : list A :=
  skipn (List.length l - n) l.

(** The code units a cleaned title is made of. *)
Definition isSafeUnit (c : ascii) : bool :=
  let n := nat_of_ascii c in
  ((48 <=? n)%nat && (n <=? 57)%nat)
  || ((97 <=? n)%nat && (n <=? 122)%nat)
  || (n =? 45)%nat.

Fixpoint allUnits (p : ascii -> bool) (s : string) : bool :=
  match s with
  | EmptyString => true
  | String c r => p c && allUnits p r
  end.

(** The characters of a list of messages, as [estimatePDFSize] counts
    them. *)
Definition totalChars (messages : list ChatMessage) : Z :=
  fold_left (fun sum msg => sum + Z.of_nat (String.length (content msg)))
    messages 0.

(** The sum of a list of waits. *)
Definition total (waits : list Z) : Z := fold_right Z.add 0 waits.

(** How [initializeChat] hands an entry of the history to the chat
    session. *)
Definition seedOf (msg : ChatMessage) : string * string :=
  (match role msg with assistant => "model" | _ => "user" end, content msg).

(** A hook after a turn that was answered. *)
Definition afterAnswer : UseGeminiChat.Hook :=
  UseGeminiChat.sendMessage Sample.live UseGeminiChat.initial "hi" 1 "r0"
    Sample.up 20.

(** A hook after a turn that failed: the model was down. *)
Definition afterFailure : UseGeminiChat.Hook :=
  UseGeminiChat.sendMessage Sample.live UseGeminiChat.initial "hi" 1 "r0"
    Sample.down 20.

End Observed.

(** * Properties of the chat core *)

(** ** Strings and traces *)

Lemma append_empty_r (s : string) : (s ++ "")%string = s.
Proof. induction s as [|c s IH]; simpl; [reflexivity | now rewrite IH]. Qed.

Lemma append_assoc (a b c : string) :
  ((a ++ b) ++ c)%string = (a ++ (b ++ c))%string.
Proof. induction a as [|x a IH]; simpl; [reflexivity | now rewrite IH]. Qed.

Lemma concat_empty_cons (x : string) (xs : list string) :
  String.concat "" (x :: xs) = (x ++ String.concat "" xs)%string.
Proof.
  destruct xs as [|y ys]; simpl; [now rewrite append_empty_r | reflexivity].
Qed.

Lemma flat_map_seq_succ {A} (f : nat -> list A) (a n : nat) :
  flat_map f (seq (S a) n) = flat_map (fun i => f (S i)) (seq a n).
Proof.
  revert a. induction n as [|n IH]; intros a; cbn; [reflexivity|].
  now rewrite IH.
Qed.

Lemma calls_app (a b : list Effect) :
  Trace.calls (a ++ b) = (Trace.calls a + Trace.calls b)%nat.
Proof. unfold Trace.calls. now rewrite filter_app, length_app. Qed.

Lemma delays_app (a b : list Effect) :
  Trace.delays (a ++ b) = Trace.delays a ++ Trace.delays b.
Proof. apply flat_map_app. Qed.

Lemma tokens_app (a b : list Effect) :
  Trace.tokens (a ++ b) = Trace.tokens a ++ Trace.tokens b.
Proof. apply flat_map_app. Qed.

Lemma completions_app (a b : list Effect) :
  Trace.completions (a ++ b) = Trace.completions a ++ Trace.completions b.
Proof. apply flat_map_app. Qed.

Lemma errors_app (a b : list Effect) :
  Trace.errors (a ++ b) = Trace.errors a ++ Trace.errors b.
Proof. apply flat_map_app. Qed.

Create Rewrite HintDb trace.

#[local] Hint Rewrite calls_app delays_app tokens_app completions_app
  errors_app length_app : trace.

(** ** One attempt *)

Module AttemptFacts.

Import ChatInterface Attempts.

Lemma consume_spec options stream : forall fullMessage progress,
  snd (consume options stream fullMessage progress)
    = (fullMessage ++ String.concat "" stream)%string /\
  Trace.calls (fst (consume options stream fullMessage progress)) = 0%nat /\
  Trace.delays (fst (consume options stream fullMessage progress)) = [] /\
  Trace.completions (fst (consume options stream fullMessage progress)) = [] /\
  Trace.errors (fst (consume options stream fullMessage progress)) = [] /\
  Trace.tokens (fst (consume options stream fullMessage progress))
    = if supplied options has_onTokenReceived then stream else [].
Proof.
  induction stream as [|chunkText rest IH]; intros fullMessage progress.
  - simpl. rewrite append_empty_r. destruct (supplied _ _); repeat split; auto.
  - cbn [consume].
    specialize (IH (fullMessage ++ chunkText)%string
                   (progress + Z.of_nat (String.length chunkText))).
    destruct (consume options rest _ _) as [later final].
    cbn [fst snd] in *.
    destruct IH as (Hs & Hc & Hd & Hk & He & Ht).
    rewrite concat_empty_cons, <- append_assoc.
    autorewrite with trace.
    rewrite Hs, Hc, Hd, Hk, He, Ht.
    destruct (supplied options has_onTokenReceived),
             (supplied options has_onProgress); cbn; repeat split; auto.
Qed.

(** An attempt that throws leaves the instance as it was, and tells the
    error callback when it is on the streaming path. *)
Lemma tryOnce_throws c options messageId startTime a error :
  fault a = Some error ->
  exists done,
    tryOnce c options messageId startTime a = (c, done, inr error) /\
    Trace.calls done = 1%nat /\
    Trace.delays done = [] /\
    Trace.completions done = [] /\
    Trace.errors done = (if reaches options has_onError then [error] else []) /\
    Trace.tokens done
      = (if reaches options has_onTokenReceived then chunks a else []).
Proof.
  intros Hf. unfold tryOnce, reaches.
  destruct (o_stream options) eqn:Hs; cbn [andb].
  - destruct (JS.defined (o_callbacks options)) eqn:Hd.
    + unfold handleStreamingResponse.
      pose proof (consume_spec options (chunks a) "" 0) as Hc.
      destruct (consume options (chunks a) "" 0) as [told fullMessage].
      cbn [fst snd] in Hc. destruct Hc as (_ & Hc & Hdl & Hk & He & Ht).
      rewrite Hf. eexists; split; [reflexivity|].
      change (Call true (o_content options) :: ?l)
        with ([Call true (o_content options)] ++ l).
      autorewrite with trace. rewrite Hc, Hdl, Hk, He, Ht.
      destruct (supplied options has_onError),
               (supplied options has_onTokenReceived);
        cbn; rewrite ?app_nil_r; repeat split; auto.
    + unfold handleRegularResponse. rewrite Hf.
      eexists; split; [reflexivity|].
      assert (forall f, supplied options f = false) as Hn.
      { intros f. unfold supplied. now destruct (o_callbacks options). }
      rewrite !Hn. cbn; repeat split; auto.
  - unfold handleRegularResponse. rewrite Hf.
    eexists; split; [reflexivity|]. cbn; repeat split; auto.
Qed.

(** An attempt that ends normally records its reply and returns it; on
    the streaming path it tells the completion callback the whole text. *)
Lemma tryOnce_returns c options messageId startTime a :
  fault a = None ->
  exists done,
    tryOnce c options messageId startTime a
      = (recorded c (replyOf a), done,
         inl (mkResponse true (Some (textOf a)) (Some messageId) None
                (Some (ended a - startTime)))) /\
    Trace.calls done = 1%nat /\
    Trace.delays done = [] /\
    Trace.errors done = [] /\
    Trace.completions done
      = (if reaches options has_onComplete then [textOf a] else []) /\
    Trace.tokens done
      = (if reaches options has_onTokenReceived then chunks a else []).
Proof.
  intros Hf. unfold tryOnce, reaches, recorded, replyOf, textOf.
  destruct (o_stream options) eqn:Hs; cbn [andb].
  - destruct (JS.defined (o_callbacks options)) eqn:Hd.
    + unfold handleStreamingResponse.
      pose proof (consume_spec options (chunks a) "" 0) as Hc.
      destruct (consume options (chunks a) "" 0) as [told fullMessage].
      cbn [fst snd] in Hc. destruct Hc as (Hfull & Hc & Hdl & Hk & He & Ht).
      cbn [String.append] in Hfull. subst fullMessage.
      rewrite Hf. eexists; split; [reflexivity|].
      change (Call true (o_content options) :: ?l)
        with ([Call true (o_content options)] ++ l).
      autorewrite with trace. rewrite Hc, Hdl, Hk, He, Ht.
      destruct (supplied options has_onComplete),
               (supplied options has_onTokenReceived);
        cbn; rewrite ?app_nil_r; repeat split; auto.
    + unfold handleRegularResponse. rewrite Hf.
      eexists; split; [reflexivity|].
      assert (forall f, supplied options f = false) as Hn.
      { intros f. unfold supplied. now destruct (o_callbacks options). }
      rewrite !Hn. cbn; repeat split; auto.
  - unfold handleRegularResponse. rewrite Hf.
    eexists; split; [reflexivity|]. cbn; repeat split; auto.
Qed.

End AttemptFacts.

(** ** The retry loop *)

Module RetryFacts.

Import ChatInterface Attempts AttemptFacts.

Lemma backoff_step retries n :
  (0 < n)%nat ->
  1000 * (retries + 1) :: backoff (retries + 1) n = backoff retries (S n).
Proof.
  intros Hn. unfold backoff.
  replace (S n - 1)%nat with (S (n - 1)) by lia.
  cbn [seq map]. rewrite <- (seq_shift (n - 1) 1), map_map.
  f_equal. apply map_ext. intros k. lia.
Qed.

Lemma recorded_config c m : sameConfig c (recorded c m).
Proof.
  unfold sameConfig, recorded.
  destruct (messageHistory c) eqn:E; cbn; rewrite ?E; auto.
Qed.

(** The guard of the loop fails exactly when no iteration is left. *)
Lemma guard_left (c : t) (retries : Z) (left : nat) :
  left = Z.to_nat (ChatInterface.retries c - retries) ->
  (left = 0%nat <-> ~ retries < ChatInterface.retries c).
Proof. lia. Qed.

(** Every attempt the guard allows throws: the call makes all of them,
    waits in between, tells the error callback each time, and returns the
    fallback response with the instance as it found it. *)
Lemma attempts_fail options messageId startTime remote :
  forall left retries c,
  left = Z.to_nat (ChatInterface.retries c - retries) ->
  0 <= retries ->
  (forall i, (i < left)%nat ->
     fault (remote (Z.to_nat retries + i)%nat) <> None) ->
  exists tr,
    attempts left retries c options messageId startTime remote
      = (c, tr, exhausted c messageId) /\
    Trace.calls tr = left /\
    Trace.delays tr = backoff retries left /\
    Trace.completions tr = [] /\
    List.length (Trace.errors tr)
      = (if reaches options has_onError then left else 0%nat) /\
    Trace.tokens tr
      = (if reaches options has_onTokenReceived
         then flat_map (fun i => chunks (remote (Z.to_nat retries + i)%nat))
                (seq 0 left)
         else []).
Proof.
  induction left as [|left IH]; intros retries c Hleft Hpos Hfail.
  - eexists; split; [reflexivity|].
    cbn. destruct (reaches _ _), (reaches _ _); repeat split; auto.
  - cbn [attempts].
    destruct (fault (remote (Z.to_nat retries))) as [error|] eqn:Hf.
    2:{ exfalso. apply (Hfail 0%nat); [lia|]. now rewrite Nat.add_0_r. }
    destruct (tryOnce_throws c options messageId startTime _ error Hf)
      as (done & -> & Hc & Hd & Hk & He & Ht).
    rewrite Z.geb_leb.
    destruct (Z.leb_spec (ChatInterface.retries c) (retries + 1)) as [Hge|Hlt].
    + assert (left = 0%nat) as -> by lia.
      cbn [handleError]. eexists; split; [reflexivity|].
      autorewrite with trace. rewrite Hc, Hd, Hk, He, Ht.
      cbn. rewrite Nat.add_0_r, !app_nil_r.
      destruct (reaches options has_onError),
               (reaches options has_onTokenReceived); repeat split; auto;
        now rewrite Nat.add_0_r.
    + destruct (IH (retries + 1) c) as (tr & -> & Hc' & Hd' & Hk' & He' & Ht');
        [lia | lia | |].
      { intros i Hi. replace (Z.to_nat (retries + 1) + i)%nat
          with (Z.to_nat retries + S i)%nat by lia.
        apply Hfail. lia. }
      eexists; split; [reflexivity|].
      change (Delay ?d :: tr) with ([Delay d] ++ tr).
      autorewrite with trace. rewrite Hc, Hd, Hk, He, Ht, Hc', Hd', Hk', He', Ht'.
      cbn [app Trace.calls Trace.delays Trace.completions Trace.errors
           Trace.tokens flat_map filter List.length].
      rewrite backoff_step by lia.
      repeat split; auto.
      * destruct (reaches options has_onError); reflexivity.
      * destruct (reaches options has_onTokenReceived); [|reflexivity].
        cbn [seq flat_map]. rewrite Nat.add_0_r. f_equal.
        rewrite flat_map_seq_succ.
        apply flat_map_ext. intros i. f_equal. f_equal. lia.
Qed.

(** The first [j] attempts throw and the next one, still allowed by the
    guard, ends normally: the call returns its text, having recorded the
    reply, and only that attempt reaches the completion callback. *)
Lemma attempts_ok options messageId startTime remote :
  forall j left retries c,
  left = Z.to_nat (ChatInterface.retries c - retries) ->
  0 <= retries ->
  (j < left)%nat ->
  (forall i, (i < j)%nat ->
     fault (remote (Z.to_nat retries + i)%nat) <> None) ->
  fault (remote (Z.to_nat retries + j)%nat) = None ->
  exists tr,
    attempts left retries c options messageId startTime remote
      = (recorded c (replyOf (remote (Z.to_nat retries + j)%nat)), tr,
         mkResponse true
           (Some (textOf (remote (Z.to_nat retries + j)%nat)))
           (Some messageId) None
           (Some (ended (remote (Z.to_nat retries + j)%nat) - startTime))) /\
    Trace.calls tr = S j /\
    Trace.delays tr = backoff retries (S j) /\
    Trace.completions tr
      = (if reaches options has_onComplete
         then [textOf (remote (Z.to_nat retries + j)%nat)] else []) /\
    List.length (Trace.errors tr)
      = (if reaches options has_onError then j else 0%nat) /\
    Trace.tokens tr
      = (if reaches options has_onTokenReceived
         then flat_map (fun i => chunks (remote (Z.to_nat retries + i)%nat))
                (seq 0 (S j))
         else []).
Proof.
  induction j as [|j IH]; intros left retries c Hleft Hpos Hj Hfail Hok.
  - destruct left as [|left]; [lia|]. cbn [attempts].
    rewrite Nat.add_0_r in *.
    destruct (tryOnce_returns c options messageId startTime _ Hok)
      as (done & -> & Hc & Hd & He & Hk & Ht).
    eexists; split; [reflexivity|].
    rewrite Hc, Hd, He, Hk, Ht. cbn. rewrite Nat.add_0_r, app_nil_r.
    destruct (reaches options has_onError); repeat split; auto.
  - destruct left as [|left]; [lia|]. cbn [attempts].
    destruct (fault (remote (Z.to_nat retries))) as [error|] eqn:Hf.
    2:{ exfalso. apply (Hfail 0%nat); [lia|]. now rewrite Nat.add_0_r. }
    destruct (tryOnce_throws c options messageId startTime _ error Hf)
      as (done & -> & Hc & Hd & Hk & He & Ht).
    rewrite Z.geb_leb.
    destruct (Z.leb_spec (ChatInterface.retries c) (retries + 1)) as [Hge|Hlt];
      [lia|].
    replace (Z.to_nat retries + S j)%nat
      with (Z.to_nat (retries + 1) + j)%nat in * by lia.
    destruct (IH left (retries + 1) c)
      as (tr & -> & Hc' & Hd' & Hk' & He' & Ht'); [lia | lia | lia | | assumption |].
    { intros i Hi. replace (Z.to_nat (retries + 1) + i)%nat
        with (Z.to_nat retries + S i)%nat by lia.
      apply Hfail. lia. }
    eexists; split; [reflexivity|].
    change (Delay ?d :: tr) with ([Delay d] ++ tr).
    autorewrite with trace. rewrite Hc, Hd, Hk, He, Ht, Hc', Hd', Hk', He', Ht'.
    cbn [app Trace.calls Trace.delays Trace.completions Trace.errors
         Trace.tokens flat_map filter List.length].
    rewrite backoff_step by lia.
    repeat split; auto.
    + destruct (reaches options has_onError); reflexivity.
    + destruct (reaches options has_onTokenReceived); [|reflexivity].
      cbn [seq flat_map]. f_equal; [now rewrite Nat.add_0_r|].
      rewrite (flat_map_seq_succ _ 1 j). f_equal; [f_equal; f_equal; lia|].
      apply flat_map_ext. intros i. f_equal. f_equal. lia.
Qed.

(** Within the attempts the guard allows, either all throw or there is a
    first one that ends normally. *)
Lemma window (remote : Transport) (from left : nat) :
  (forall i, (i < left)%nat -> fault (remote (from + i)%nat) <> None) \/
  (exists j, (j < left)%nat /\
     (forall i, (i < j)%nat -> fault (remote (from + i)%nat) <> None) /\
     fault (remote (from + j)%nat) = None).
Proof.
  induction left as [|left IH]; [left; intros i Hi; lia|].
  destruct IH as [Hall|Hsome]; [|right].
  - destruct (fault (remote (from + left)%nat)) eqn:Hf.
    + left. intros i Hi. destruct (Nat.eq_dec i left) as [->|Hne].
      * now rewrite Hf.
      * apply Hall. lia.
    + right. exists left. repeat split; auto.
  - destruct Hsome as (j & Hj & Hbefore & Hok).
    exists j. repeat split; auto.
Qed.

End RetryFacts.

(** ** One call of the client *)

Module CallFacts.

Import ChatInterface Attempts Call AttemptFacts RetryFacts.

Lemma recorded_retries c m : retries (recorded c m) = retries c.
Proof. apply recorded_config. Qed.

Lemma recorded_fallback c m : fallbackMessage (recorded c m) = fallbackMessage c.
Proof. apply recorded_config. Qed.

Lemma recorded_history c m :
  conversationHistory (recorded c m)
    = conversationHistory c ++ (if messageHistory c then [m] else []).
Proof.
  unfold recorded. destruct (messageHistory c); cbn; [reflexivity|].
  now rewrite app_nil_r.
Qed.

Lemma sendMessage_unfold c options now digits remote :
  sendMessage c options now digits remote
    = attempts (allowed c) 0 (recorded c (entryOf options now digits)) options
        (generateMessageId now digits) now remote.
Proof.
  unfold sendMessage, allowed. fold (entryOf options now digits).
  change (if messageHistory c then push c (entryOf options now digits) else c)
    with (recorded c (entryOf options now digits)).
  now rewrite recorded_retries, Z.sub_0_r.
Qed.

(** What a call whose attempts all throw amounts to. *)
Lemma sendMessage_fails c options now digits remote :
  FailsThroughout c remote ->
  exists tr,
    sendMessage c options now digits remote
      = (recorded c (entryOf options now digits), tr,
         mkResponse false None (Some (generateMessageId now digits))
           (Some (fallbackMessage c)) None) /\
    Trace.calls tr = allowed c /\
    Trace.delays tr = backoff 0 (allowed c) /\
    Trace.completions tr = [] /\
    List.length (Trace.errors tr)
      = (if reaches options has_onError then allowed c else 0%nat) /\
    Trace.tokens tr
      = (if reaches options has_onTokenReceived
         then flat_map (fun i => chunks (remote i)) (seq 0 (allowed c))
         else []).
Proof.
  intros Hfail. rewrite sendMessage_unfold.
  destruct (attempts_fail options (generateMessageId now digits) now remote
              (allowed c) 0 (recorded c (entryOf options now digits)))
    as (tr & -> & H); [ | lia | | ].
  - unfold allowed. rewrite recorded_retries. lia.
  - intros i Hi. cbn. now apply Hfail.
  - exists tr. unfold exhausted. rewrite recorded_fallback.
    split; [reflexivity | exact H].
Qed.

(** What a call whose attempt [j] is the first to end normally amounts
    to. *)
Lemma sendMessage_succeeds c options now digits remote j :
  SucceedsAt c remote j ->
  exists tr,
    sendMessage c options now digits remote
      = (recorded (recorded c (entryOf options now digits)) (replyOf (remote j)),
         tr, answer (remote j) now digits) /\
    Trace.calls tr = S j /\
    Trace.delays tr = backoff 0 (S j) /\
    Trace.completions tr
      = (if reaches options has_onComplete then [textOf (remote j)] else []) /\
    List.length (Trace.errors tr)
      = (if reaches options has_onError then j else 0%nat) /\
    Trace.tokens tr
      = (if reaches options has_onTokenReceived
         then flat_map (fun i => chunks (remote i)) (seq 0 (S j))
         else []).
Proof.
  intros (Hj & Hbefore & Hok). rewrite sendMessage_unfold.
  destruct (attempts_ok options (generateMessageId now digits) now remote
              j (allowed c) 0 (recorded c (entryOf options now digits)))
    as (tr & -> & H); try assumption; try lia.
  - unfold allowed. rewrite recorded_retries. lia.
  - exists tr. split; [reflexivity | exact H].
Qed.

(** Every call is of one of the two kinds. *)
Lemma fails_or_succeeds c remote :
  FailsThroughout c remote \/ exists j, SucceedsAt c remote j.
Proof.
  destruct (window remote 0 (allowed c)) as [Hall|(j & Hj & Hb & Hok)].
  - left. exact Hall.
  - right. exists j. repeat split; assumption.
Qed.

End CallFacts.

(** ** The layout of a failed call *)

Module LayoutFacts.

Import ChatInterface Attempts Call AttemptFacts RetryFacts CallFacts.

(** The effects of an attempt do not depend on the instance, the id or
    the clock of the call. *)
Lemma attempt_steps c options messageId startTime a :
  trace_of (tryOnce c options messageId startTime a)
    = Observed.stepsOf options a.
Proof.
  unfold Observed.stepsOf, tryOnce, handleStreamingResponse,
    handleRegularResponse, trace_of.
  destruct (o_stream options && JS.defined (o_callbacks options)).
  - destruct (consume options (chunks a) "" 0) as [told fullMessage].
    destruct (fault a); reflexivity.
  - destruct (fault a); reflexivity.
Qed.

(** An attempt is one call into the SDK, made first, and holds no
    wait. *)
Lemma steps_shape options a :
  exists told,
    Observed.stepsOf options a
      = Call (o_stream options && JS.defined (o_callbacks options))
          (o_content options) :: told /\
    Trace.calls told = 0%nat /\
    Trace.delays told = [].
Proof.
  unfold Observed.stepsOf, tryOnce, handleStreamingResponse,
    handleRegularResponse.
  destruct (o_stream options && JS.defined (o_callbacks options)).
  - pose proof (consume_spec options (chunks a) "" 0) as Hc.
    destruct (consume options (chunks a) "" 0) as [told fullMessage].
    cbn [fst snd] in Hc. destruct Hc as (_ & Hc & Hd & _).
    destruct (fault a); cbn [fst snd].
    + eexists. split; [reflexivity|].
      autorewrite with trace. rewrite Hc, Hd.
      destruct (supplied options has_onError); split; reflexivity.
    + eexists. split; [reflexivity|].
      autorewrite with trace. rewrite Hc, Hd.
      destruct (supplied options has_onComplete); split; reflexivity.
  - destruct (fault a); cbn [fst snd]; eexists; split; try reflexivity;
      split; reflexivity.
Qed.

(** The run of attempts that all throw, effect by effect. *)
Lemma attempts_fail_layout options messageId startTime remote :
  forall left retries c,
  left = Z.to_nat (ChatInterface.retries c - retries) ->
  0 <= retries ->
  (forall i, (i < left)%nat ->
     fault (remote (Z.to_nat retries + i)%nat) <> None) ->
  trace_of (attempts left retries c options messageId startTime remote)
    = flat_map
        (fun i =>
           Observed.stepsOf options (remote (Z.to_nat retries + i)%nat)
             ++ (if (S i <? left)%nat
                 then [Delay (1000 * (retries + Z.of_nat (S i)))]
                 else Observed.loggedOf (remote (Z.to_nat retries + i)%nat)))
        (seq 0 left).
Proof.
  induction left as [|left IH]; intros retries c Hleft Hpos Hfail;
    [reflexivity|].
  cbn [attempts]. change (seq 0 (S left)) with (0%nat :: seq 1 left).
  cbn [flat_map]. rewrite Nat.add_0_r.
  rewrite <- (attempt_steps c options messageId startTime
                (remote (Z.to_nat retries))).
  destruct (fault (remote (Z.to_nat retries))) as [error|] eqn:Hf.
  2:{ exfalso. apply (Hfail 0%nat); [lia|]. now rewrite Nat.add_0_r. }
  destruct (tryOnce_throws c options messageId startTime _ error Hf)
    as (done & Hrun & _).
  rewrite Hrun. cbn [trace_of fst snd].
  rewrite Z.geb_leb.
  destruct (Z.leb_spec (ChatInterface.retries c) (retries + 1)) as [Hge|Hlt].
  - assert (left = 0%nat) as -> by lia.
    cbn [handleError trace_of fst snd seq flat_map Nat.ltb Nat.leb].
    unfold Observed.loggedOf. rewrite Hf. now rewrite app_nil_r.
  - specialize (IH (retries + 1) c).
    destruct (attempts left (retries + 1) c options messageId startTime remote)
      as [[c2 later] response] eqn:Hrest.
    cbn [trace_of fst snd] in *.
    destruct left as [|left']; [lia|].
    change (1 <? S (S left'))%nat with true. cbv iota.
    rewrite <- app_assoc. f_equal. cbn [app]. f_equal.
    rewrite IH; [ | lia | lia | ].
    + rewrite flat_map_seq_succ. apply flat_map_ext. intros i.
      replace (Z.to_nat (retries + 1) + i)%nat
        with (Z.to_nat retries + S i)%nat by lia.
      f_equal.
      change (S (S i) <? S (S left'))%nat with (S i <? S left')%nat.
      destruct (S i <? S left')%nat; [|reflexivity].
      f_equal. f_equal. lia.
    + intros i Hi. replace (Z.to_nat (retries + 1) + i)%nat
        with (Z.to_nat retries + S i)%nat by lia.
      apply Hfail. lia.
Qed.

(** A call whose attempts all throw, effect by effect. *)
Lemma sendMessage_fails_layout c options now digits remote :
  FailsThroughout c remote ->
  trace_of (sendMessage c options now digits remote)
    = Observed.failedLayout options remote (allowed c).
Proof.
  intros Hfail. rewrite sendMessage_unfold.
  rewrite (attempts_fail_layout options (generateMessageId now digits) now
             remote (allowed c) 0).
  - unfold Observed.failedLayout. apply flat_map_ext. intros i.
    cbn [Z.to_nat Nat.add]. reflexivity.
  - unfold allowed. rewrite recorded_retries. lia.
  - lia.
  - intros i Hi. now apply Hfail.
Qed.

End LayoutFacts.

(** ** The client: retry policy, callbacks and history mirror *)

Module ClientClaims.

Import ChatInterface Attempts Call CallFacts.

(** C10.  With [errorHandling.retries] at or below zero the loop is never
    entered: [sendMessage] makes no call into the SDK (it has no effect
    at all on the outside), resolves with [success = false] and the
    fallback message as its error, and has nevertheless appended the
    user message to the history mirror when [messageHistory] is on. *)
Theorem no_attempt_without_retries c options now digits remote :
  retries c <= 0 ->
  trace_of (sendMessage c options now digits remote) = [] /\
  Trace.calls (trace_of (sendMessage c options now digits remote)) = 0%nat /\
  success (result_of (sendMessage c options now digits remote)) = false /\
  r_error (result_of (sendMessage c options now digits remote))
    = Some (fallbackMessage c) /\
  conversationHistory (client_of (sendMessage c options now digits remote))
    = conversationHistory c
        ++ (if messageHistory c then [entryOf options now digits] else []).
Proof.
  intros Hle. rewrite sendMessage_unfold.
  assert (allowed c = 0%nat) as -> by (unfold allowed; lia).
  cbn [attempts client_of trace_of result_of fst snd exhausted success r_error].
  rewrite recorded_fallback, recorded_history. repeat split; reflexivity.
Qed.

Lemma no_attempt_without_retries_witness :
  retries Sample.idle <= 0 /\
  trace_of (sendMessage Sample.idle Sample.streamed 1 "r0" Sample.flaky) = [] /\
  Trace.calls (trace_of (sendMessage Sample.idle Sample.streamed 1 "r0" Sample.flaky)) = 0%nat /\
  success (result_of (sendMessage Sample.idle Sample.streamed 1 "r0" Sample.flaky)) = false /\
  r_error (result_of (sendMessage Sample.idle Sample.streamed 1 "r0" Sample.flaky))
    = Some (fallbackMessage Sample.idle) /\
  conversationHistory
    (client_of (sendMessage Sample.idle Sample.streamed 1 "r0" Sample.flaky))
    = conversationHistory Sample.idle
        ++ (if messageHistory Sample.idle
            then [entryOf Sample.streamed 1 "r0"] else []).
Proof.
  split; [vm_compute; discriminate|].
  apply (no_attempt_without_retries Sample.idle Sample.streamed 1 "r0" Sample.flaky).
  vm_compute; discriminate.
Defined.

(** The claim C6 as written fails: with three allowed attempts a model
    that is down is called three times, not four. *)
Lemma persistent_failure_is_not_one_more :
  FailsThroughout Sample.client Sample.down /\
  Z.of_nat (Trace.calls
    (trace_of (sendMessage Sample.client Sample.streamed 1 "r0" Sample.down)))
  <> 1 + retries Sample.client.
Proof.
  split; [intros n _; vm_compute; discriminate|].
  vm_compute. discriminate.
Qed.

(** C6, amended.  A call whose attempts all throw is attempted
    [errorHandling.retries] times in total (that is, retried one time
    less), and waits [1000 * k] ms after its k-th failed attempt, for
    every k below [errorHandling.retries]: its effects are, in time,
    those of the first attempt, the wait of 1000 ms, those of the
    second attempt, the wait of 2000 ms, and so on, with the log of
    [handleError] and no wait after the last attempt; and the effects of
    an attempt are its one call into the SDK, made first, and no
    wait. *)
Theorem persistent_failure_attempts c options now digits remote :
  FailsThroughout c remote ->
  Z.of_nat (Trace.calls (trace_of (sendMessage c options now digits remote)))
    = Z.max 0 (retries c) /\
  Trace.delays (trace_of (sendMessage c options now digits remote))
    = map (fun k => 1000 * Z.of_nat k) (seq 1 (Z.to_nat (retries c) - 1)) /\
  trace_of (sendMessage c options now digits remote)
    = flat_map
        (fun i =>
           Observed.stepsOf options (remote i)
             ++ (if (S i <? Z.to_nat (retries c))%nat
                 then [Delay (1000 * Z.of_nat (S i))]
                 else Observed.loggedOf (remote i)))
        (seq 0 (Z.to_nat (retries c))) /\
  (forall a,
     exists told,
       Observed.stepsOf options a
         = Call (o_stream options && JS.defined (o_callbacks options))
             (o_content options) :: told /\
       Trace.calls told = 0%nat /\
       Trace.delays told = []).
Proof.
  intros Hfail.
  split; [|split; [|split]].
  - destruct (sendMessage_fails c options now digits remote Hfail)
      as (tr & -> & Hc & _).
    cbn [trace_of fst snd]. rewrite Hc. unfold allowed. lia.
  - destruct (sendMessage_fails c options now digits remote Hfail)
      as (tr & -> & _ & Hd & _).
    cbn [trace_of fst snd]. rewrite Hd. unfold allowed, backoff.
    apply map_ext. intros k. lia.
  - exact (LayoutFacts.sendMessage_fails_layout c options now digits remote
             Hfail).
  - intros a. apply LayoutFacts.steps_shape.
Qed.

Lemma persistent_failure_attempts_witness :
  FailsThroughout Sample.client Sample.down /\
  Z.of_nat (Trace.calls
    (trace_of (sendMessage Sample.client Sample.streamed 1 "r0" Sample.down)))
    = Z.max 0 (retries Sample.client) /\
  Trace.delays
    (trace_of (sendMessage Sample.client Sample.streamed 1 "r0" Sample.down))
    = map (fun k => 1000 * Z.of_nat k)
        (seq 1 (Z.to_nat (retries Sample.client) - 1)) /\
  trace_of (sendMessage Sample.client Sample.streamed 1 "r0" Sample.down)
    = flat_map
        (fun i =>
           Observed.stepsOf Sample.streamed (Sample.down i)
             ++ (if (S i <? Z.to_nat (retries Sample.client))%nat
                 then [Delay (1000 * Z.of_nat (S i))]
                 else Observed.loggedOf (Sample.down i)))
        (seq 0 (Z.to_nat (retries Sample.client))) /\
  (forall a,
     exists told,
       Observed.stepsOf Sample.streamed a
         = Call (o_stream Sample.streamed
                 && JS.defined (o_callbacks Sample.streamed))
             (o_content Sample.streamed) :: told /\
       Trace.calls told = 0%nat /\
       Trace.delays told = []).
Proof.
  split; [intros n _; vm_compute; discriminate|].
  apply (persistent_failure_attempts Sample.client Sample.streamed 1 "r0" Sample.down).
  intros n _; vm_compute; discriminate.
Defined.

(** The layout on the model that is down, with three attempts: the
    waits of 1000 and 2000 ms sit between the attempts, each after the
    error callback of the attempt that threw, and the log comes last. *)
Example failed_call_in_time :
  trace_of (sendMessage Sample.client Sample.streamed 1 "r0" Sample.down)
    = [Call true "hi"; OnTokenReceived "x"; OnProgress 1; OnError Sample.boom;
       Delay 1000;
       Call true "hi"; OnTokenReceived "x"; OnProgress 1; OnError Sample.boom;
       Delay 2000;
       Call true "hi"; OnTokenReceived "x"; OnProgress 1; OnError Sample.boom;
       ConsoleError Sample.boom].
Proof. reflexivity. Qed.

(** Whatever the model does, a call makes at most the allowed number of
    attempts, and its k-th wait is [1000 * k] ms. *)
Lemma attempts_bounded c options now digits remote :
  (Trace.calls (trace_of (sendMessage c options now digits remote))
     <= allowed c)%nat /\
  Trace.delays (trace_of (sendMessage c options now digits remote))
    = backoff 0
        (Trace.calls (trace_of (sendMessage c options now digits remote))).
Proof.
  destruct (fails_or_succeeds c remote) as [Hfail|(j & Hok)].
  - destruct (sendMessage_fails c options now digits remote Hfail)
      as (tr & -> & Hc & Hd & _).
    cbn [trace_of fst snd]. rewrite Hc, Hd. split; [lia | reflexivity].
  - destruct (sendMessage_succeeds c options now digits remote j Hok)
      as (tr & -> & Hc & Hd & _).
    cbn [trace_of fst snd]. rewrite Hc, Hd.
    destruct Hok as (Hj & _). split; [lia | reflexivity].
Qed.

(** The claim C5 as written fails: after a call whose attempts all threw
    the history mirror is not what it was. *)
Lemma failed_turn_changes_history :
  FailsThroughout Sample.client Sample.down /\
  conversationHistory
    (client_of (sendMessage Sample.client Sample.streamed 1 "r0" Sample.down))
  <> conversationHistory Sample.client.
Proof.
  split; [intros n _; vm_compute; discriminate|].
  vm_compute. discriminate.
Qed.

(** C5, amended.  [sendMessage] appends the user message to the history
    mirror before its first attempt, when [messageHistory] is on, and the
    reply only when an attempt succeeds: after a call whose attempts all
    throw, the mirror is the mirror before the call followed by the user
    message, with no assistant content; with [messageHistory] off it is
    unchanged. *)
Theorem failed_turn_history c options now digits remote :
  FailsThroughout c remote ->
  success (result_of (sendMessage c options now digits remote)) = false /\
  conversationHistory (client_of (sendMessage c options now digits remote))
    = conversationHistory c
        ++ (if messageHistory c then [entryOf options now digits] else []).
Proof.
  intros Hfail.
  destruct (sendMessage_fails c options now digits remote Hfail)
    as (tr & -> & _).
  cbn [client_of result_of fst snd success].
  now rewrite recorded_history.
Qed.

Lemma failed_turn_history_witness :
  FailsThroughout Sample.client Sample.down /\
  success (result_of
    (sendMessage Sample.client Sample.streamed 1 "r0" Sample.down)) = false /\
  conversationHistory
    (client_of (sendMessage Sample.client Sample.streamed 1 "r0" Sample.down))
    = conversationHistory Sample.client
        ++ (if messageHistory Sample.client
            then [entryOf Sample.streamed 1 "r0"] else []).
Proof.
  split; [intros n _; vm_compute; discriminate|].
  apply (failed_turn_history Sample.client Sample.streamed 1 "r0" Sample.down).
  intros n _; vm_compute; discriminate.
Defined.



End ClientClaims.

(** ** The hook: delivery of a run to the session state *)

Module SessionFacts.

Import UseGeminiChat Session.

Lemma deliver_messages now tr : forall h,
  messages (state (fold_left (deliver now) tr h))
    = messages (state h) ++ map (fun s => committed s now) (Trace.completions tr).
Proof.
  induction tr as [|e tr IH]; intros h; cbn [fold_left].
  - cbn. now rewrite app_nil_r.
  - rewrite IH. destruct e; cbn; try reflexivity.
    + now rewrite <- app_assoc.
    + destruct (negb _); reflexivity.
Qed.

Lemma deliver_chatRef now tr : forall h,
  chatRef (fold_left (deliver now) tr h) = chatRef h.
Proof.
  induction tr as [|e tr IH]; intros h; cbn [fold_left]; [reflexivity|].
  rewrite IH. destruct e; cbn; try reflexivity.
  destruct (negb _); reflexivity.
Qed.

(** The tokens of a run pile up in the ref, whatever else is delivered. *)
Lemma deliver_ref now tr : forall h,
  streamingMessageRef (fold_left (deliver now) tr h)
    = (streamingMessageRef h ++ String.concat "" (Trace.tokens tr))%string.
Proof.
  induction tr as [|e tr IH]; intros h; cbn [fold_left].
  - cbn. now rewrite append_empty_r.
  - rewrite IH. destruct e; cbn [Trace.tokens flat_map app deliver];
      try reflexivity.
    + rewrite concat_empty_cons, <- append_assoc. reflexivity.
    + unfold onError. destruct (negb _); reflexivity.
Qed.

Section Turn.

Variable options : UseGeminiChatOptions.

Lemma issue_blank h content now :
  JS.trim content = "" ->
  sendMessage_issue options h content now = (h, None).
Proof. intros Hb. unfold sendMessage_issue. now rewrite Hb. Qed.

Lemma trim_truthy content :
  JS.trim content <> "" -> JS.truthy (JS.trim content) = true.
Proof.
  intros Hn. unfold JS.truthy.
  destruct (String.eqb_spec (JS.trim content) ""); [contradiction | reflexivity].
Qed.

Lemma reaches_callOf content f :
  f callbacks = true ->
  Attempts.reaches (callOf options content) f = streaming options.
Proof.
  intros Hf. unfold Attempts.reaches, callOf, ChatInterface.supplied.
  cbn. destruct (streaming options); cbn; [exact Hf | reflexivity].
Qed.

Lemma clientOf_own h :
  OwnClient h ->
  ChatInterface.messageHistory (clientOf h) = true /\
  ChatInterface.retries (clientOf h) = configuredRetries /\
  ChatInterface.fallbackMessage (clientOf h) = configuredFallback.
Proof.
  unfold OwnClient, clientOf. destruct (chatRef h); [auto|].
  intros _. repeat split; reflexivity.
Qed.

(** A non-blank [sendMessage], spelled out: the user message is
    committed, the run of the client is delivered, and the continuation
    sees the response. *)
Lemma sendMessage_spelled h content now digits remote finished :
  JS.trim content <> "" ->
  sendMessage options h content now digits remote finished
    = sendMessage_resolved options
        (fold_left (deliver finished)
           (Attempts.trace_of (runOf options h content now digits remote))
           (setChat (fst (sendMessage_issue options h content now))
              (Some (Attempts.client_of (runOf options h content now digits remote)))))
        (Attempts.result_of (runOf options h content now digits remote)) finished.
Proof.
  intros Hn. unfold runOf, sendMessage, sendMessage_issue.
  rewrite (trim_truthy _ Hn). cbn [negb fst].
  fold (callOf options content).
  unfold clientOf, initializeChat.
  destruct (chatRef h) as [c|] eqn:Hc; cbn [chatRef setState setAbortController
    setStreamingMessage setChat]; rewrite ?Hc;
  destruct (ChatInterface.sendMessage _ (callOf options content) now digits remote)
    as [[c' tr] resp]; reflexivity.
Qed.

Lemma issue_messages h content now :
  JS.trim content <> "" ->
  messages (state (fst (sendMessage_issue options h content now)))
    = messages (state h) ++ [submitted content now].
Proof.
  intros Hn. unfold sendMessage_issue. rewrite (trim_truthy _ Hn).
  cbn. unfold initializeChat. destruct (chatRef h); reflexivity.
Qed.

Lemma orElse_empty (s : string) : JS.orElse (Some s) "" = s.
Proof.
  unfold JS.orElse, JS.truthy.
  destruct (String.eqb_spec s ""); cbn; [now subst | reflexivity].
Qed.

(** A turn whose attempt [j] is the first to end normally commits the
    user message and then one assistant message that holds the text of
    that attempt, with streaming on or off. *)
Lemma turn_succeeds h text now digits remote finished j :
  JS.trim text <> "" ->
  OwnClient h ->
  (j < 3)%nat ->
  (forall i, (i < j)%nat -> fault (remote i) <> None) ->
  fault (remote j) = None ->
  exists reply,
    role reply = assistant /\
    content reply = Attempts.textOf (remote j) /\
    messages (state (sendMessage options h text now digits remote finished))
      = messages (state h) ++ [submitted text now; reply].
Proof.
  intros Hn Hown Hj Hbefore Hok.
  rewrite (sendMessage_spelled h text now digits remote finished Hn).
  destruct (clientOf_own h Hown) as (Hm & Hr & Hfb).
  unfold runOf.
  destruct (CallFacts.sendMessage_succeeds (clientOf h) (callOf options text)
              now digits remote j) as (tr & -> & _ & _ & Hk & _).
  { unfold Call.SucceedsAt, Call.allowed. rewrite Hr. auto. }
  rewrite (reaches_callOf text has_onComplete eq_refl) in Hk.
  cbn [Attempts.trace_of Attempts.client_of Attempts.result_of fst snd].
  unfold sendMessage_resolved, Call.answer. cbn [success r_message r_messageId].
  destruct (streaming options); cbn [negb andb].
  - exists (committed (Attempts.textOf (remote j)) finished).
    repeat split.
    rewrite deliver_messages, Hk. cbn [map state setChat].
    now rewrite (issue_messages h text now Hn), <- app_assoc.
  - eexists. split; [|split]; cycle 2.
    + cbn [setState state messages].
      rewrite deliver_messages, Hk. cbn [map state setChat].
      rewrite app_nil_r, (issue_messages h text now Hn), <- app_assoc.
      reflexivity.
    + reflexivity.
    + cbn [content]. apply orElse_empty.
Qed.

Lemma find_last_user ms u :
  isUser u = true -> find isUser (rev (ms ++ [u])) = Some u.
Proof. intros Hu. rewrite rev_app_distr. cbn. now rewrite Hu. Qed.

Lemma findIndexFrom_last {A} (p : A -> bool) (u : A) : forall ms i,
  (forall m, In m ms -> p m = false) ->
  p u = true ->
  JS.findIndexFrom p (ms ++ [u]) i = i + Z.of_nat (List.length ms).
Proof.
  induction ms as [|m ms IH]; intros i Hms Hu; cbn [app JS.findIndexFrom].
  - rewrite Hu. cbn. lia.
  - rewrite (Hms m (or_introl eq_refl)).
    rewrite IH; [cbn [List.length]; lia | | exact Hu].
    intros m' Hin. apply Hms. now right.
Qed.

Lemma slice_all {A} (l : list A) :
  JS.slice l 0 (Z.of_nat (List.length l)) = l.
Proof.
  unfold JS.slice, JS.rel.
  change (0 <? 0) with false. cbv iota.
  destruct (Z.ltb_spec (Z.of_nat (List.length l)) 0) as [Hlt|_]; [lia|].
  rewrite (Z.min_l 0) by lia. rewrite Z.min_id.
  rewrite Z.sub_0_r, Nat2Z.id. cbn [Z.to_nat skipn]. apply firstn_all.
Qed.

(** [retryLastMessage] in a state that ends with a user message whose id
    no earlier message bears: the sequence is kept whole, the error is
    emptied, and the content goes through [sendMessage], which commits
    it as a new user message; when the turn succeeds the reply follows
    the two. *)
Lemma retry_after_keeping h ms u now digits remote finished j :
  messages (state h) = ms ++ [u] ->
  isUser u = true ->
  (forall m, In m ms -> messageId m <> messageId u) ->
  JS.trim (content u) <> "" ->
  OwnClient h ->
  (j < 3)%nat ->
  (forall i, (i < j)%nat -> fault (remote i) <> None) ->
  fault (remote j) = None ->
  exists reply,
    role reply = assistant /\
    content reply = Attempts.textOf (remote j) /\
    messages (state (retryLastMessage options h now digits remote finished))
      = ms ++ [u; submitted (content u) now; reply].
Proof.
  intros Hms Hu Hfresh Hn Hown Hj Hbefore Hok.
  unfold retryLastMessage, lastUserMessage.
  rewrite Hms, (find_last_user ms u Hu).
  unfold JS.findIndex. rewrite findIndexFrom_last.
  2:{ intros m Hin. apply String.eqb_neq. now apply Hfresh. }
  2:{ apply String.eqb_refl. }
  match goal with
  | |- context [sendMessage options ?h' _ _ _ _ _] => set (kept := h')
  end.
  assert (messages (state kept) = ms ++ [u]) as Hkept.
  { subst kept. cbn [setState state messages]. rewrite Hms.
    replace (0 + Z.of_nat (List.length ms) + 1)
      with (Z.of_nat (List.length (ms ++ [u])))
      by (rewrite length_app; cbn [List.length]; lia).
    apply slice_all. }
  destruct (turn_succeeds kept (content u) now digits remote
              finished j Hn Hown Hj Hbefore Hok)
    as (reply & Hrole & Hcontent & Hmsgs).
  exists reply. repeat split; try assumption.
  rewrite Hmsgs, Hkept, <- app_assoc. reflexivity.
Qed.

End Turn.

(** The client of the hook stays the one it made, whatever happens. *)
Lemma own_config c c' :
  Attempts.sameConfig c c' ->
  ChatInterface.messageHistory c = true /\
  ChatInterface.retries c = configuredRetries /\
  ChatInterface.fallbackMessage c = configuredFallback ->
  ChatInterface.messageHistory c' = true /\
  ChatInterface.retries c' = configuredRetries /\
  ChatInterface.fallbackMessage c' = configuredFallback.
Proof. intros (-> & -> & ->) H. exact H. Qed.

Lemma issue_own options h content now :
  OwnClient h -> OwnClient (fst (sendMessage_issue options h content now)).
Proof.
  unfold OwnClient, sendMessage_issue, initializeChat. intros Hown.
  destruct (negb (JS.truthy (JS.trim content))); cbn [fst]; [exact Hown|].
  destruct (chatRef h) eqn:Hc; cbn; rewrite ?Hc; [exact Hown|].
  repeat split; reflexivity.
Qed.

Lemma step_own options h a :
  OwnClient h -> OwnClient (step options h a).
Proof.
  intros Hown.
  destruct a as [text now | token | progress | fullMessage now | err
                | response now | err | | | now | ]; cbn [step].
  - now apply issue_own.
  - exact Hown.
  - exact Hown.
  - exact Hown.
  - unfold OwnClient, onError in *. destruct (negb _); exact Hown.
  - unfold OwnClient, sendMessage_resolved in *.
    destruct (_ && _); [exact Hown|]. destruct (negb _); exact Hown.
  - unfold OwnClient, sendMessage_rejected in *. destruct (negb _); exact Hown.
  - unfold OwnClient, stopStreaming in *.
    destruct (abortControllerRef h); exact Hown.
  - unfold OwnClient, clearConversation in *. cbn [setState chatRef].
    destruct (chatRef h) as [c|] eqn:Hc; cbn; [exact Hown | now rewrite Hc].
  - unfold retryLastMessage_issue.
    destruct (lastUserMessage h); [apply issue_own|]; exact Hown.
  - unfold OwnClient, trimHistory in *.
    destruct (_ >? _); [|exact Hown]. cbn [setState chatRef].
    destruct (chatRef h) as [c|] eqn:Hc; cbn; [|now rewrite Hc].
    unfold ChatInterface.trimHistory. destruct (_ >? _); cbn; exact Hown.
Qed.

Lemma run_own options actions : forall h,
  OwnClient h -> OwnClient (run options h actions).
Proof.
  induction actions as [|a actions IH]; intros h Hown; [exact Hown|].
  cbn [run fold_left]. apply IH. now apply step_own.
Qed.

Lemma resolved_chatRef options h response now :
  chatRef (sendMessage_resolved options h response now) = chatRef h.
Proof.
  unfold sendMessage_resolved.
  destruct (_ && _); [reflexivity|]. destruct (negb _); reflexivity.
Qed.

(** A whole turn leaves the hook with its own client too. *)
Lemma sendMessage_own options h text now digits remote finished :
  OwnClient h ->
  OwnClient (sendMessage options h text now digits remote finished).
Proof.
  intros Hown.
  destruct (string_dec (JS.trim text) "") as [Hb|Hn].
  - unfold sendMessage. now rewrite (issue_blank options h text now Hb).
  - rewrite (sendMessage_spelled options h text now digits remote finished Hn).
    unfold OwnClient at 1.
    rewrite resolved_chatRef, deliver_chatRef. cbn [setChat chatRef].
    apply (own_config (clientOf h)); [|now apply clientOf_own].
    unfold runOf.
    destruct (CallFacts.fails_or_succeeds (clientOf h) remote)
      as [Hfail|(j & Hok)].
    + destruct (CallFacts.sendMessage_fails (clientOf h)
                  (callOf options text) now digits remote Hfail)
        as (tr & -> & _).
      apply RetryFacts.recorded_config.
    + destruct (CallFacts.sendMessage_succeeds (clientOf h)
                  (callOf options text) now digits remote j Hok)
        as (tr & -> & _).
      cbn [Attempts.client_of fst].
      destruct (RetryFacts.recorded_config (clientOf h)
                  (Call.entryOf (callOf options text) now digits))
        as (H1 & H2 & H3).
      destruct (RetryFacts.recorded_config
                  (Attempts.recorded (clientOf h)
                     (Call.entryOf (callOf options text) now digits))
                  (Attempts.replyOf (remote j)))
        as (H4 & H5 & H6).
      repeat split; congruence.
Qed.

End SessionFacts.

(** ** The session: flags, commits, errors and retry *)

Module SessionClaims.

Import UseGeminiChat Session SessionFacts.

(** C9.  A text whose trimmed form is empty makes [sendMessage] return
    at once: no call is issued to the client, and the hook (the message
    sequence, both flags, the streaming buffer, the error, and the refs)
    is what it was. *)
Theorem blank_send_is_noop options h content now digits remote finished :
  JS.trim content = "" ->
  sendMessage_issue options h content now = (h, None) /\
  sendMessage options h content now digits remote finished = h.
Proof.
  intros Hb. unfold sendMessage.
  rewrite (issue_blank options h content now Hb). split; reflexivity.
Qed.

Lemma blank_send_is_noop_witness :
  JS.trim "   " = "" /\
  sendMessage_issue Sample.live initial "   " 1 = (initial, None) /\
  sendMessage Sample.live initial "   " 1 "r0" Sample.up 2 = initial.
Proof.
  split; [reflexivity|].
  apply (blank_send_is_noop Sample.live initial "   " 1 "r0" Sample.up 2).
  reflexivity.
Defined.

Lemma issue_flags options h content now :
  FlagsTogether options (state h) ->
  FlagsTogether options (state (fst (sendMessage_issue options h content now))).
Proof.
  unfold FlagsTogether, sendMessage_issue. intros Hinv.
  destruct (negb (JS.truthy (JS.trim content))); cbn; [exact Hinv|].
  now rewrite andb_true_r.
Qed.

Lemma step_flags options h a :
  FlagsTogether options (state h) ->
  FlagsTogether options (state (step options h a)).
Proof.
  intros Hinv. destruct a; cbn [step]; try (now apply issue_flags).
  all: try (unfold retryLastMessage_issue;
            destruct (lastUserMessage h); [apply issue_flags|]; exact Hinv).
  all: unfold FlagsTogether in *;
    unfold onTokenReceived, onProgress, onComplete, onError,
      sendMessage_resolved, sendMessage_rejected, stopStreaming,
      clearConversation, trimHistory.
  all: repeat match goal with
       | |- context [if ?b then _ else _] => destruct b eqn:?
       | |- context [match ?x with Some _ => _ | None => _ end] =>
           destruct x eqn:?
       end; cbn in *; try congruence.
  all: destruct (streaming options); cbn in *; congruence.
Qed.

Lemma run_flags options actions : forall h,
  FlagsTogether options (state h) ->
  FlagsTogether options (state (run options h actions)).
Proof.
  induction actions as [|a actions IH]; intros h Hinv; [exact Hinv|].
  cbn [run fold_left]. apply IH. now apply step_flags.
Qed.

(** The claim C2 as written fails: with streaming on, both flags are up
    from [sendMessage] on, and still are after the first token. *)
Lemma loading_and_streaming_together :
  isLoading (state (run Sample.live initial [Send "hi" 1])) = true /\
  isStreaming (state (run Sample.live initial [Send "hi" 1])) = true /\
  isLoading (state (run Sample.live initial [Send "hi" 1; Token "a"])) = true /\
  isStreaming (state (run Sample.live initial [Send "hi" 1; Token "a"])) = true.
Proof. vm_compute. repeat split. Qed.

(** How each event moves the two flags. *)
Lemma flags_by_event options h :
  (forall text now,
     isLoading (state (step options h (Send text now)))
       = (if JS.truthy (JS.trim text) then true else isLoading (state h)) /\
     isStreaming (state (step options h (Send text now)))
       = (if JS.truthy (JS.trim text) then streaming options
          else isStreaming (state h))) /\
  (forall token,
     isLoading (state (step options h (Token token))) = isLoading (state h) /\
     isStreaming (state (step options h (Token token)))
       = isStreaming (state h)) /\
  (forall fullMessage now,
     isLoading (state (step options h (Complete fullMessage now))) = false /\
     isStreaming (state (step options h (Complete fullMessage now))) = false) /\
  (forall err,
     JS.name err <> "AbortError" ->
     isLoading (state (step options h (Failed err))) = false /\
     isStreaming (state (step options h (Failed err))) = false) /\
  isLoading (state (step options h Stop)) = false /\
  isStreaming (state (step options h Stop)) = false.
Proof.
  repeat split; intros; cbn [step];
    unfold sendMessage_issue, onError, stopStreaming;
    try destruct (JS.truthy (JS.trim text));
    try destruct (String.eqb_spec (JS.name err) "AbortError");
    try destruct (abortControllerRef h);
    try reflexivity; contradiction.
Qed.

(** C2, amended.  In every state reachable by any sequence of events,
    [isStreaming] is up exactly when streaming is enabled and
    [isLoading] is up: with streaming enabled [sendMessage] raises both
    flags together, the arrival of a token changes neither, and
    completion, [stopStreaming] and an error that is not an abort lower
    both together (the error callback leaves both as they are for an
    [AbortError]); with streaming disabled [isStreaming] is never up. *)
Theorem streaming_flag_follows_loading options actions :
  isStreaming (state (run options initial actions))
    = streaming options && isLoading (state (run options initial actions)) /\
  (forall text now,
     isLoading (state (run options initial (actions ++ [Send text now])))
       = (if JS.truthy (JS.trim text) then true
          else isLoading (state (run options initial actions))) /\
     isStreaming (state (run options initial (actions ++ [Send text now])))
       = (if JS.truthy (JS.trim text) then streaming options
          else isStreaming (state (run options initial actions)))) /\
  (forall token,
     isLoading (state (run options initial (actions ++ [Token token])))
       = isLoading (state (run options initial actions)) /\
     isStreaming (state (run options initial (actions ++ [Token token])))
       = isStreaming (state (run options initial actions))) /\
  (forall fullMessage now,
     isLoading
       (state (run options initial (actions ++ [Complete fullMessage now])))
       = false /\
     isStreaming
       (state (run options initial (actions ++ [Complete fullMessage now])))
       = false) /\
  (forall err,
     isLoading (state (run options initial (actions ++ [Failed err])))
       = (if (JS.name err =? "AbortError")%string
          then isLoading (state (run options initial actions)) else false) /\
     isStreaming (state (run options initial (actions ++ [Failed err])))
       = (if (JS.name err =? "AbortError")%string
          then isStreaming (state (run options initial actions)) else false)) /\
  isLoading (state (run options initial (actions ++ [Stop]))) = false /\
  isStreaming (state (run options initial (actions ++ [Stop]))) = false.
Proof.
  assert (forall a, run options initial (actions ++ [a])
                    = step options (run options initial actions) a) as Hsnoc.
  { intros a. unfold run. now rewrite fold_left_app. }
  split.
  { apply run_flags. unfold FlagsTogether. cbn. now rewrite andb_false_r. }
  set (h := run options initial actions) in *.
  split; [|split; [|split; [|split; [|split]]]].
  - intros text now. rewrite Hsnoc. apply (flags_by_event options h).
  - intros token. rewrite Hsnoc. split; reflexivity.
  - intros fullMessage now. rewrite Hsnoc. split; reflexivity.
  - intros err. rewrite Hsnoc. cbn [step]. unfold onError.
    destruct (JS.name err =? "AbortError")%string; split; reflexivity.
  - rewrite Hsnoc. cbn [step]. unfold stopStreaming.
    destruct (abortControllerRef h); reflexivity.
  - rewrite Hsnoc. cbn [step]. unfold stopStreaming.
    destruct (abortControllerRef h); reflexivity.
Qed.

(** Both flags stay up through the error callback of an abort. *)
Example abort_leaves_flags_up :
  isLoading
    (state (run Sample.live initial
              [Send "hi" 1; Failed (JS.mkError "AbortError" "aborted")]))
    = true /\
  isStreaming
    (state (run Sample.live initial
              [Send "hi" 1; Failed (JS.mkError "AbortError" "aborted")]))
    = true.
Proof. split; reflexivity. Qed.

(** C7.  A turn whose three attempts all throw ends with [lastError]
    set to the configured fallback message, with streaming on or off,
    whatever the messages of the errors thrown: in particular it is not
    the message of any of them (unless that is the fallback text
    itself).  Both flags are down and only the user message has been
    committed. *)
Theorem exhausted_turn_surfaces_fallback
    options h content now digits remote finished :
  JS.trim content <> "" ->
  OwnClient h ->
  (forall n, (n < 3)%nat -> fault (remote n) <> None) ->
  error (state (sendMessage options h content now digits remote finished))
    = Some configuredFallback /\
  (forall n raw,
     fault (remote n) = Some raw ->
     JS.message raw <> configuredFallback ->
     error (state (sendMessage options h content now digits remote finished))
       <> Some (JS.message raw)) /\
  isLoading (state (sendMessage options h content now digits remote finished))
    = false /\
  isStreaming (state (sendMessage options h content now digits remote finished))
    = false /\
  messages (state (sendMessage options h content now digits remote finished))
    = messages (state h) ++ [submitted content now].
Proof.
  intros Hn Hown Hfail.
  rewrite (sendMessage_spelled options h content now digits remote finished Hn).
  destruct (clientOf_own h Hown) as (Hm & Hr & Hfb).
  unfold runOf.
  destruct (CallFacts.sendMessage_fails (clientOf h) (callOf options content)
              now digits remote) as (tr & -> & _ & _ & Hk & _).
  { unfold Call.FailsThroughout, Call.allowed. rewrite Hr. exact Hfail. }
  cbn [Attempts.trace_of Attempts.client_of Attempts.result_of fst snd].
  unfold sendMessage_resolved. cbn [success r_error].
  rewrite andb_false_r. cbn [negb setState state error isLoading isStreaming
    messages].
  rewrite Hfb.
  assert (JS.orElse (Some configuredFallback) "Unknown error occurred"
          = configuredFallback) as -> by reflexivity.
  repeat split.
  - intros n raw _ Hraw Heq. apply Hraw. now injection Heq.
  - rewrite deliver_messages, Hk. cbn [map state setChat].
    now rewrite app_nil_r, (issue_messages options h content now Hn).
Qed.

Lemma exhausted_turn_surfaces_fallback_witness :
  JS.trim "hi" <> "" /\
  OwnClient initial /\
  (forall n, (n < 3)%nat -> fault (Sample.down n) <> None) /\
  error (state (sendMessage Sample.live initial "hi" 1 "r0" Sample.down 20))
    = Some configuredFallback /\
  (forall n raw,
     fault (Sample.down n) = Some raw ->
     JS.message raw <> configuredFallback ->
     error (state (sendMessage Sample.live initial "hi" 1 "r0" Sample.down 20))
       <> Some (JS.message raw)) /\
  isLoading (state (sendMessage Sample.live initial "hi" 1 "r0" Sample.down 20))
    = false /\
  isStreaming (state (sendMessage Sample.live initial "hi" 1 "r0" Sample.down 20))
    = false /\
  messages (state (sendMessage Sample.live initial "hi" 1 "r0" Sample.down 20))
    = messages (state initial) ++ [submitted "hi" 1].
Proof.
  split; [vm_compute; discriminate|].
  split; [exact I|].
  split; [intros n _; vm_compute; discriminate|].
  apply (exhausted_turn_surfaces_fallback
           Sample.live initial "hi" 1 "r0" Sample.down 20).
  - vm_compute; discriminate.
  - exact I.
  - intros n _; vm_compute; discriminate.
Defined.

(** The same turn with streaming off: no callback is involved, and the
    continuation sets the fallback text. *)
Example blocking_turn_surfaces_fallback :
  state (sendMessage Sample.blocking initial "hi" 1 "r0" Sample.down 20)
    = mkState [submitted "hi" 1] false (Some configuredFallback) false "".
Proof. reflexivity. Qed.

(** While such a turn is still retrying with streaming on, the error
    callback of the attempt that just threw has put the message of that
    error in the state; the continuation of [sendMessage] replaces it by
    the fallback text once the attempts are exhausted. *)
Remark raw_error_between_attempts :
  error (state (run Sample.live initial
                  [Send "hi" 1; Token "x"; Failed Sample.boom]))
    = Some "network down".
Proof. reflexivity. Qed.

(** The claim C3 as written fails: the first attempt delivers "ab" and
    throws, the second delivers "c" and "d" and completes; the three
    chunks all reached the token callback (and piled up in the ref), but
    the message committed on completion holds "cd". *)
Lemma committed_reply_leaves_failed_chunks_out :
  success (Attempts.result_of
    (runOf Sample.live initial "hi" 1 "r0" Sample.flaky)) = true /\
  Trace.tokens (Attempts.trace_of
    (runOf Sample.live initial "hi" 1 "r0" Sample.flaky)) = ["ab"; "c"; "d"] /\
  streamingMessageRef
    (sendMessage Sample.live initial "hi" 1 "r0" Sample.flaky 20) = "abcd" /\
  map content
    (messages (state (sendMessage Sample.live initial "hi" 1 "r0" Sample.flaky 20)))
    = ["hi"; "cd"] /\
  "cd" <> String.concat "" ["ab"; "c"; "d"].
Proof. vm_compute. repeat split. discriminate. Qed.

(** C3, amended.  For every streaming turn that completes, the content
    of the assistant message committed on completion is the
    concatenation, in arrival order, of the chunks of the attempt that
    completed; the chunks of the attempts that threw before it were
    delivered to the token callback as well, but are not part of it. *)
Theorem committed_reply_is_completed_attempt
    options h content now digits remote finished j :
  streaming options = true ->
  JS.trim content <> "" ->
  OwnClient h ->
  (j < 3)%nat ->
  (forall i, (i < j)%nat -> fault (remote i) <> None) ->
  fault (remote j) = None ->
  messages (state (sendMessage options h content now digits remote finished))
    = messages (state h)
        ++ [submitted content now;
            committed (String.concat "" (chunks (remote j))) finished] /\
  Trace.tokens (Attempts.trace_of (runOf options h content now digits remote))
    = flat_map (fun i => chunks (remote i)) (seq 0 (S j)).
Proof.
  intros Hs Hn Hown Hj Hbefore Hok.
  rewrite (sendMessage_spelled options h content now digits remote finished Hn).
  destruct (clientOf_own h Hown) as (Hm & Hr & Hfb).
  unfold runOf.
  destruct (CallFacts.sendMessage_succeeds (clientOf h) (callOf options content)
              now digits remote j) as (tr & -> & _ & _ & Hk & _ & Ht).
  { unfold Call.SucceedsAt, Call.allowed. rewrite Hr. auto. }
  rewrite (reaches_callOf options content has_onComplete eq_refl), Hs in Hk.
  rewrite (reaches_callOf options content has_onTokenReceived eq_refl), Hs in Ht.
  cbn [Attempts.trace_of Attempts.client_of Attempts.result_of fst snd].
  split; [|exact Ht].
  unfold sendMessage_resolved, Call.answer. cbn [success]. rewrite Hs.
  cbn [negb andb].
  rewrite deliver_messages, Hk. cbn [map state setChat].
  rewrite (issue_messages options h content now Hn), <- app_assoc.
  reflexivity.
Qed.

Lemma committed_reply_is_completed_attempt_witness :
  streaming Sample.live = true /\
  JS.trim "hi" <> "" /\
  OwnClient initial /\
  (1 < 3)%nat /\
  (forall i, (i < 1)%nat -> fault (Sample.flaky i) <> None) /\
  fault (Sample.flaky 1%nat) = None /\
  messages (state (sendMessage Sample.live initial "hi" 1 "r0" Sample.flaky 20))
    = messages (state initial)
        ++ [submitted "hi" 1;
            committed (String.concat "" (chunks (Sample.flaky 1%nat))) 20] /\
  Trace.tokens (Attempts.trace_of
    (runOf Sample.live initial "hi" 1 "r0" Sample.flaky))
    = flat_map (fun i => chunks (Sample.flaky i)) (seq 0 2).
Proof.
  assert (forall i, (i < 1)%nat -> fault (Sample.flaky i) <> None) as Hb.
  { intros i Hi. destruct i; [vm_compute; discriminate | lia]. }
  repeat (split; [first [reflexivity | lia | exact I | exact Hb
                        | vm_compute; discriminate]|]).
  apply (committed_reply_is_completed_attempt
           Sample.live initial "hi" 1 "r0" Sample.flaky 20 1%nat).
  - reflexivity.
  - vm_compute; discriminate.
  - exact I.
  - lia.
  - exact Hb.
  - reflexivity.
Defined.

(** The callbacks of a call do not look at whether it was stopped. *)
Lemma token_after_stop h token :
  currentStreamingMessage (state (onTokenReceived (stopStreaming h) token))
    = (streamingMessageRef h ++ token)%string.
Proof. unfold stopStreaming. destruct (abortControllerRef h); reflexivity. Qed.

Lemma complete_after_stop h fullMessage now :
  messages (state (onComplete (stopStreaming h) fullMessage now))
    = messages (state h) ++ [committed fullMessage now].
Proof. unfold stopStreaming. destruct (abortControllerRef h); reflexivity. Qed.

(** C1, on the code.  A streaming call is in flight and has delivered
    "a"; [stopStreaming] empties the buffer and leaves the user message
    alone in the sequence.  The token "b" of that call, delivered after
    the stop, puts "ab" in the buffer, and its completion, delivered
    after the stop, commits an assistant message. *)
Theorem stopped_call_still_writes :
  currentStreamingMessage
    (state (run Sample.live initial [Send "hi" 1; Token "a"; Stop])) = "" /\
  messages
    (state (run Sample.live initial [Send "hi" 1; Token "a"; Stop]))
    = [submitted "hi" 1] /\
  currentStreamingMessage
    (state (run Sample.live initial [Send "hi" 1; Token "a"; Stop; Token "b"]))
    = "ab" /\
  messages
    (state (run Sample.live initial
              [Send "hi" 1; Token "a"; Stop; Token "b"; Complete "ab" 2]))
    = [submitted "hi" 1; committed "ab" 2].
Proof. vm_compute. repeat split. Qed.

(** C4, on the code.  After a failed turn the sequence is the user
    message alone and the error is set.  [retryLastMessage], with a
    model that now answers, clears the error but ends with the user
    message twice in the sequence, before the reply: the truncation
    keeps it and the [sendMessage] it calls commits it again. *)
Theorem retry_commits_user_message_again :
  map (fun m => (role m, content m)) (messages (state failedTurn))
    = [(user, "hi")] /\
  error (state failedTurn) = Some configuredFallback /\
  map (fun m => (role m, content m))
    (messages (state (retryLastMessage Sample.live failedTurn 30 "r3" Sample.up 40)))
    = [(user, "hi"); (user, "hi"); (assistant, "cd")] /\
  error (state (retryLastMessage Sample.live failedTurn 30 "r3" Sample.up 40))
    = None.
Proof. vm_compute. repeat split. Qed.

End SessionClaims.

(** * Further properties of the code *)

(** ** Reading a run attempt by attempt *)

Module RunFacts.

Import ChatInterface Attempts Call AttemptFacts RetryFacts CallFacts.

Section Reading.

Context {X : Type} (f : Effect -> list X).

Hypothesis f_delay : forall ms, f (Delay ms) = [].
Hypothesis f_console : forall e, f (ConsoleError e) = [].

Variables (options : SendMessageOptions) (messageId : string)
  (startTime : Z) (remote : Transport).

Lemma tryOnce_steps c a :
  trace_of (tryOnce c options messageId startTime a) = Observed.stepsOf options a.
Proof.
  unfold Observed.stepsOf, tryOnce, handleStreamingResponse,
    handleRegularResponse, trace_of.
  destruct (o_stream options && JS.defined (o_callbacks options)).
  - destruct (consume options (chunks a) "" 0) as [told fullMessage].
    destruct (fault a); reflexivity.
  - destruct (fault a); reflexivity.
Qed.

(** What [f] reads in attempt [i] of a run that started with [retries]
    failures counted. *)
Local Abbreviation readAt retries :=
  (fun i : nat =>
     flat_map f (Observed.stepsOf options (remote (Z.to_nat retries + i)%nat))).

Lemma readAt_shift retries i :
  0 <= retries ->
  readAt (retries + 1) i = readAt retries (S i).
Proof.
  intros Hpos. cbv beta.
  now replace (Z.to_nat (retries + 1) + i)%nat
    with (Z.to_nat retries + S i)%nat by lia.
Qed.

(** A reading that skips the waits and the log reads a failed run as
    the readings of its attempts, one after the other. *)
Lemma attempts_fail_read :
  forall left retries c,
  left = Z.to_nat (ChatInterface.retries c - retries) ->
  0 <= retries ->
  (forall i, (i < left)%nat ->
     fault (remote (Z.to_nat retries + i)%nat) <> None) ->
  flat_map f
    (trace_of (attempts left retries c options messageId startTime remote))
    = flat_map (readAt retries) (seq 0 left).
Proof.
  induction left as [|left IH]; intros retries c Hleft Hpos Hfail;
    [reflexivity|].
  cbn [attempts seq flat_map]. rewrite Nat.add_0_r.
  rewrite <- (tryOnce_steps c (remote (Z.to_nat retries))).
  destruct (fault (remote (Z.to_nat retries))) as [error|] eqn:Hf.
  2:{ exfalso. apply (Hfail 0%nat); [lia|]. now rewrite Nat.add_0_r. }
  destruct (tryOnce_throws c options messageId startTime _ error Hf)
    as (done & Hrun & _).
  rewrite Hrun. cbn [trace_of fst snd].
  rewrite Z.geb_leb.
  destruct (Z.leb_spec (ChatInterface.retries c) (retries + 1)) as [Hge|Hlt].
  - assert (left = 0%nat) as -> by lia.
    cbn [handleError trace_of fst snd seq flat_map].
    rewrite flat_map_app. cbn [flat_map]. now rewrite f_console, !app_nil_r.
  - specialize (IH (retries + 1) c).
    destruct (attempts left (retries + 1) c options messageId startTime remote)
      as [[c2 later] response] eqn:Hrest.
    cbn [trace_of fst snd] in *.
    rewrite flat_map_app. cbn [flat_map]. rewrite f_delay. cbn [app].
    rewrite IH; [ | lia | lia | ].
    + f_equal. rewrite flat_map_seq_succ.
      apply flat_map_ext. intros i. now apply (readAt_shift retries i).
    + intros i Hi. replace (Z.to_nat (retries + 1) + i)%nat
        with (Z.to_nat retries + S i)%nat by lia.
      apply Hfail. lia.
Qed.

(** The same for a run whose attempt [j] is the first to end normally. *)
Lemma attempts_ok_read :
  forall j left retries c,
  left = Z.to_nat (ChatInterface.retries c - retries) ->
  0 <= retries ->
  (j < left)%nat ->
  (forall i, (i < j)%nat ->
     fault (remote (Z.to_nat retries + i)%nat) <> None) ->
  fault (remote (Z.to_nat retries + j)%nat) = None ->
  flat_map f
    (trace_of (attempts left retries c options messageId startTime remote))
    = flat_map (readAt retries) (seq 0 (S j)).
Proof.
  induction j as [|j IH]; intros left retries c Hleft Hpos Hj Hfail Hok.
  - destruct left as [|left]; [lia|].
    cbn [attempts seq flat_map]. rewrite Nat.add_0_r in *.
    rewrite <- (tryOnce_steps c (remote (Z.to_nat retries))).
    destruct (tryOnce_returns c options messageId startTime _ Hok)
      as (done & Hrun & _).
    rewrite Hrun. cbn [trace_of fst snd]. now rewrite app_nil_r.
  - destruct left as [|left]; [lia|].
    cbn [attempts].
    change (seq 0 (S (S j))) with (0%nat :: seq 1 (S j)). cbn [flat_map].
    rewrite Nat.add_0_r.
    rewrite <- (tryOnce_steps c (remote (Z.to_nat retries))).
    destruct (fault (remote (Z.to_nat retries))) as [error|] eqn:Hf.
    2:{ exfalso. apply (Hfail 0%nat); [lia|]. now rewrite Nat.add_0_r. }
    destruct (tryOnce_throws c options messageId startTime _ error Hf)
      as (done & Hrun & _).
    rewrite Hrun. cbn [trace_of fst snd].
    rewrite Z.geb_leb.
    destruct (Z.leb_spec (ChatInterface.retries c) (retries + 1)) as [Hge|Hlt];
      [lia|].
    specialize (IH left (retries + 1) c).
    destruct (attempts left (retries + 1) c options messageId startTime remote)
      as [[c2 later] response] eqn:Hrest.
    cbn [trace_of fst snd] in *.
    rewrite flat_map_app. cbn [flat_map]. rewrite f_delay. cbn [app].
    rewrite IH; [ | lia | lia | lia | | ].
    + f_equal. rewrite flat_map_seq_succ.
      apply flat_map_ext. intros i. now apply (readAt_shift retries i).
    + intros i Hi. replace (Z.to_nat (retries + 1) + i)%nat
        with (Z.to_nat retries + S i)%nat by lia.
      apply Hfail. lia.
    + now replace (Z.to_nat (retries + 1) + j)%nat
        with (Z.to_nat retries + S j)%nat by lia.
Qed.

End Reading.

Lemma sendMessage_fails_read {X} (f : Effect -> list X)
    c options now digits remote :
  (forall ms, f (Delay ms) = []) ->
  (forall e, f (ConsoleError e) = []) ->
  FailsThroughout c remote ->
  flat_map f (trace_of (sendMessage c options now digits remote))
    = flat_map (fun i => flat_map f (Observed.stepsOf options (remote i)))
        (seq 0 (allowed c)).
Proof.
  intros Hd Hc Hfail. rewrite sendMessage_unfold.
  rewrite (attempts_fail_read f Hd Hc options (generateMessageId now digits)
             now remote (allowed c) 0); try reflexivity; try lia.
  - unfold allowed. rewrite recorded_retries. lia.
  - intros i Hi. now apply Hfail.
Qed.

Lemma sendMessage_succeeds_read {X} (f : Effect -> list X)
    c options now digits remote j :
  (forall ms, f (Delay ms) = []) ->
  (forall e, f (ConsoleError e) = []) ->
  SucceedsAt c remote j ->
  flat_map f (trace_of (sendMessage c options now digits remote))
    = flat_map (fun i => flat_map f (Observed.stepsOf options (remote i)))
        (seq 0 (S j)).
Proof.
  intros Hd Hc (Hj & Hbefore & Hok). rewrite sendMessage_unfold.
  rewrite (attempts_ok_read f Hd options (generateMessageId now digits)
             now remote j (allowed c) 0); try reflexivity; try lia;
    try assumption.
  unfold allowed. rewrite recorded_retries. lia.
Qed.

Lemma steps_errors options a :
  flat_map Observed.errorOf (Observed.stepsOf options a)
    = match fault a with
      | Some e => if reaches options has_onError then [e] else []
      | None => []
      end.
Proof.
  unfold Observed.stepsOf.
  destruct (fault a) as [e|] eqn:Hf.
  - destruct (tryOnce_throws (new false 0 "") options "" 0 a e Hf)
      as (done & -> & _ & _ & _ & He & _). exact He.
  - destruct (tryOnce_returns (new false 0 "") options "" 0 a Hf)
      as (done & -> & _ & _ & He & _). exact He.
Qed.

Lemma consume_progress options : forall stream fullMessage progress,
  Observed.progresses (fst (consume options stream fullMessage progress))
    = if supplied options has_onProgress
      then Observed.runningLengths progress stream else [].
Proof.
  induction stream as [|chunkText rest IH]; intros fullMessage progress.
  - cbn. now destruct (supplied _ _).
  - cbn [consume Observed.runningLengths].
    specialize (IH (fullMessage ++ chunkText)%string
                   (progress + Z.of_nat (String.length chunkText))).
    destruct (consume options rest _ _) as [later final]. cbn [fst] in *.
    unfold Observed.progresses in *. rewrite !flat_map_app, IH.
    destruct (supplied options has_onTokenReceived),
             (supplied options has_onProgress); reflexivity.
Qed.

Lemma steps_progress options a :
  Observed.progresses (Observed.stepsOf options a)
    = if reaches options has_onProgress
      then Observed.runningLengths 0 (chunks a) else [].
Proof.
  unfold Observed.stepsOf, tryOnce, reaches, handleStreamingResponse,
    handleRegularResponse.
  destruct (o_stream options); cbn [andb].
  2:{ destruct (fault a); reflexivity. }
  destruct (JS.defined (o_callbacks options)) eqn:Hd.
  - pose proof (consume_progress options (chunks a) "" 0) as Hp.
    destruct (consume options (chunks a) "" 0) as [told fullMessage].
    cbn [fst] in Hp. unfold Observed.progresses in *.
    destruct (fault a); cbn [fst snd flat_map Observed.progressOf app];
      rewrite flat_map_app, Hp;
      destruct (supplied options has_onProgress), (supplied options _);
      cbn; now rewrite ?app_nil_r.
  - assert (supplied options has_onProgress = false) as ->.
    { unfold supplied. now destruct (o_callbacks options). }
    destruct (fault a); reflexivity.
Qed.

Lemma steps_quiet options a :
  o_stream options && JS.defined (o_callbacks options) = false ->
  Observed.callbacksOf (Observed.stepsOf options a) = [].
Proof.
  intros Hoff. unfold Observed.stepsOf, tryOnce. rewrite Hoff.
  unfold handleRegularResponse. destruct (fault a); reflexivity.
Qed.

Lemma flat_map_none {A B} (g : A -> list B) (l : list A) :
  (forall x, g x = []) -> flat_map g l = [].
Proof.
  intros Hg. induction l as [|x l IH]; cbn; [reflexivity|].
  now rewrite Hg, IH.
Qed.

End RunFacts.

(** ** Slices *)

Module SliceFacts.

Lemma firstn_whole {A} (n : nat) (l : list A) :
  (List.length l <= n)%nat -> firstn n l = l.
Proof. intros Hle. now apply firstn_all2. Qed.

(** [slice(-n)] with a positive [n] below the length keeps the last [n]
    entries. *)
Lemma sliceFrom_last {A} (l : list A) (n : Z) :
  0 < n ->
  n < Z.of_nat (List.length l) ->
  JS.sliceFrom l (- n) = Observed.lastN (Z.to_nat n) l.
Proof.
  intros Hpos Hlt. unfold JS.sliceFrom, JS.slice, JS.rel, Observed.lastN.
  destruct (Z.ltb_spec (- n) 0) as [_|Hge]; [|lia].
  destruct (Z.ltb_spec (Z.of_nat (List.length l)) 0) as [Hneg|_]; [lia|].
  rewrite Z.min_id, Z.max_l by lia.
  replace (Z.to_nat (Z.of_nat (List.length l) + - n))
    with (List.length l - Z.to_nat n)%nat by lia.
  apply firstn_whole. rewrite length_skipn. lia.
Qed.

(** [slice(k)] with [k] at or above zero drops the first [k] entries. *)
Lemma sliceFrom_drop {A} (l : list A) (k : Z) :
  0 <= k ->
  JS.sliceFrom l k = skipn (Z.to_nat k) l.
Proof.
  intros Hpos. unfold JS.sliceFrom, JS.slice, JS.rel.
  destruct (Z.ltb_spec k 0) as [Hneg|_]; [lia|].
  destruct (Z.ltb_spec (Z.of_nat (List.length l)) 0) as [Hneg|_]; [lia|].
  rewrite Z.min_id.
  destruct (Z.le_ge_cases k (Z.of_nat (List.length l))) as [Hle|Hge].
  - rewrite Z.min_l by lia. apply firstn_whole. rewrite length_skipn. lia.
  - rewrite Z.min_r by lia. rewrite !skipn_all2 by lia. now rewrite firstn_nil.
Qed.

Lemma lastN_whole {A} (n : nat) (l : list A) :
  (List.length l <= n)%nat -> Observed.lastN n l = l.
Proof.
  intros Hle. unfold Observed.lastN.
  now replace (List.length l - n)%nat with 0%nat by lia.
Qed.

Lemma lastN_length {A} (n : nat) (l : list A) :
  List.length (Observed.lastN n l) = Nat.min n (List.length l).
Proof. unfold Observed.lastN. rewrite length_skipn. lia. Qed.

Lemma lastN_suffix {A} (n : nat) (l : list A) :
  firstn (List.length l - n) l ++ Observed.lastN n l = l.
Proof. apply firstn_skipn. Qed.

End SliceFacts.

(** ** The client, beyond the retry policy *)

Module ClientExtras.

Import ChatInterface Attempts Call AttemptFacts RetryFacts CallFacts RunFacts.

Lemma length_append (a b : string) :
  String.length (a ++ b)%string = (String.length a + String.length b)%nat.
Proof. induction a as [|x a IH]; cbn; [reflexivity | now rewrite IH]. Qed.

Lemma last_app_nonempty {A} (l l' : list A) (d : A) :
  l' <> [] -> last (l ++ l') d = last l' d.
Proof.
  intros Hne. destruct (exists_last Hne) as (front & x & ->).
  now rewrite app_assoc, !last_last.
Qed.

Lemma runningLengths_last : forall stream sofar d,
  stream <> [] ->
  last (Observed.runningLengths sofar stream) d
    = sofar + Z.of_nat (String.length (String.concat "" stream)).
Proof.
  induction stream as [|chunkText rest IH]; intros sofar d Hne;
    [contradiction|].
  rewrite concat_empty_cons, length_append.
  destruct rest as [|next rest'].
  - cbn. lia.
  - cbn [Observed.runningLengths] in *.
    change (last (?x :: ?y :: ?l) d) with (last (y :: l) d).
    rewrite (IH _ d) by discriminate. lia.
Qed.

Lemma runningLengths_nonempty stream sofar :
  stream <> [] -> Observed.runningLengths sofar stream <> [].
Proof. destruct stream; [contradiction | discriminate]. Qed.

(** X1.  The history mirror only grows, and by what the call exchanged:
    whatever the model does, a call appends the message it was given
    and, exactly when it succeeds, one assistant entry holding the
    text it returns; with [messageHistory] off it appends nothing. *)
Theorem history_grows_by_call c options now digits remote :
  exists reply,
    role reply = assistant /\
    conversationHistory (client_of (sendMessage c options now digits remote))
      = conversationHistory c
          ++ (if messageHistory c
              then entryOf options now digits
                     :: (if success (result_of (sendMessage c options now digits remote))
                         then [reply] else [])
              else []) /\
    r_message (result_of (sendMessage c options now digits remote))
      = (if success (result_of (sendMessage c options now digits remote))
         then Some (content reply) else None).
Proof.
  destruct (fails_or_succeeds c remote) as [Hfail|(j & Hok)].
  - exists (replyOf (remote 0%nat)).
    destruct (sendMessage_fails c options now digits remote Hfail)
      as (tr & -> & _).
    cbn [client_of result_of fst snd success r_message].
    rewrite recorded_history. repeat split.
  - exists (replyOf (remote j)).
    destruct (sendMessage_succeeds c options now digits remote j Hok)
      as (tr & -> & _).
    cbn [client_of result_of fst snd success r_message answer].
    rewrite !recorded_history.
    destruct (recorded_config c (entryOf options now digits)) as (-> & _).
    rewrite <- app_assoc.
    destruct (messageHistory c); repeat split.
Qed.

(** X2.  A call that is not on the streaming path (the flag is off, or no
    callbacks were passed) invokes no callback at all, whatever the
    model does and however often it is retried. *)
Theorem blocking_call_is_silent c options now digits remote :
  o_stream options && JS.defined (o_callbacks options) = false ->
  Observed.callbacksOf (trace_of (sendMessage c options now digits remote)) = [].
Proof.
  intros Hoff. unfold Observed.callbacksOf.
  destruct (fails_or_succeeds c remote) as [Hfail|(j & Hok)].
  - rewrite (sendMessage_fails_read Observed.callbackOf c options now digits
               remote (fun _ => eq_refl) (fun _ => eq_refl) Hfail).
    apply flat_map_none. intros i. now apply steps_quiet.
  - rewrite (sendMessage_succeeds_read Observed.callbackOf c options now digits
               remote j (fun _ => eq_refl) (fun _ => eq_refl) Hok).
    apply flat_map_none. intros i. now apply steps_quiet.
Qed.

Lemma blocking_call_is_silent_witness :
  o_stream (mkOptions user "hi" false (Some (mkCallbacks true true true true)))
    && JS.defined
         (o_callbacks
            (mkOptions user "hi" false (Some (mkCallbacks true true true true))))
    = false /\
  Observed.callbacksOf
    (trace_of
       (sendMessage Sample.client
          (mkOptions user "hi" false (Some (mkCallbacks true true true true)))
          1 "r0" Sample.flaky))
    = [].
Proof.
  split; [reflexivity|].
  apply (blocking_call_is_silent Sample.client
           (mkOptions user "hi" false (Some (mkCallbacks true true true true)))
           1 "r0" Sample.flaky).
  reflexivity.
Defined.

(** X3.  The progress callback reports, after every chunk, the length of the
    text of the current attempt so far: the count starts again from
    zero in every attempt.  The reports of the attempt that ends
    normally end at the length of the text the call returns; so that
    length is the last report of the call, unless that attempt yielded
    no chunk: then it reports nothing and the text is empty. *)
Theorem progress_restarts_with_each_attempt c options now digits remote j :
  reaches options has_onProgress = true ->
  SucceedsAt c remote j ->
  Observed.progresses (trace_of (sendMessage c options now digits remote))
    = flat_map (fun i => Observed.runningLengths 0 (chunks (remote i)))
        (seq 0 (S j)) /\
  last (Observed.runningLengths 0 (chunks (remote j))) 0
    = Z.of_nat (String.length (textOf (remote j))) /\
  match chunks (remote j) with
  | [] => textOf (remote j) = ""
  | _ :: _ =>
      last (Observed.progresses
              (trace_of (sendMessage c options now digits remote))) 0
        = Z.of_nat (String.length (textOf (remote j)))
  end.
Proof.
  intros Hp Hok.
  assert (Observed.progresses (trace_of (sendMessage c options now digits remote))
          = flat_map (fun i => Observed.runningLengths 0 (chunks (remote i)))
              (seq 0 (S j))) as Hall.
  { unfold Observed.progresses.
    rewrite (sendMessage_succeeds_read Observed.progressOf c options now digits
               remote j (fun _ => eq_refl) (fun _ => eq_refl) Hok).
    apply flat_map_ext. intros i.
    change (flat_map Observed.progressOf (Observed.stepsOf options (remote i)))
      with (Observed.progresses (Observed.stepsOf options (remote i))).
    now rewrite steps_progress, Hp. }
  split; [exact Hall|].
  unfold textOf.
  destruct (chunks (remote j)) as [|chunkText rest] eqn:Hchunks.
  - split; reflexivity.
  - split.
    + now rewrite runningLengths_last by discriminate.
    + rewrite Hall, seq_S, flat_map_app. cbn [flat_map Nat.add].
      rewrite app_nil_r, Hchunks.
      rewrite last_app_nonempty
        by (apply runningLengths_nonempty; discriminate).
      now rewrite runningLengths_last by discriminate.
Qed.

Lemma progress_restarts_with_each_attempt_witness :
  reaches Sample.streamed has_onProgress = true /\
  SucceedsAt Sample.client Sample.flaky 1 /\
  Observed.progresses
    (trace_of (sendMessage Sample.client Sample.streamed 1 "r0" Sample.flaky))
    = flat_map (fun i => Observed.runningLengths 0 (chunks (Sample.flaky i)))
        (seq 0 2) /\
  last (Observed.runningLengths 0 (chunks (Sample.flaky 1%nat))) 0
    = Z.of_nat (String.length (textOf (Sample.flaky 1%nat))) /\
  match chunks (Sample.flaky 1%nat) with
  | [] => textOf (Sample.flaky 1%nat) = ""
  | _ :: _ =>
      last (Observed.progresses
              (trace_of (sendMessage Sample.client Sample.streamed 1 "r0"
                           Sample.flaky))) 0
        = Z.of_nat (String.length (textOf (Sample.flaky 1%nat)))
  end.
Proof.
  assert (SucceedsAt Sample.client Sample.flaky 1) as Hok.
  { split; [vm_compute; lia|]. split; [|reflexivity].
    intros i Hi. destruct i; [vm_compute; discriminate | lia]. }
  split; [reflexivity|]. split; [exact Hok|].
  apply (progress_restarts_with_each_attempt Sample.client Sample.streamed
           1 "r0" Sample.flaky 1%nat).
  - reflexivity.
  - exact Hok.
Defined.

(** When the attempt that ends normally yields nothing, the last report
    of the call is one of an attempt that threw: after "ab" and a
    throw, an empty stream that ends normally leaves the reports at 2
    and returns the empty text. *)
Example progress_of_an_empty_answer :
  Observed.progresses
    (trace_of
       (sendMessage Sample.client Sample.streamed 1 "r0"
          (fun n => match n with
                    | O => mkAttempt ["ab"] (Some Sample.boom) 5 "r1"
                    | S _ => mkAttempt [] None 9 "r2"
                    end)))
    = [2] /\
  r_message
    (result_of
       (sendMessage Sample.client Sample.streamed 1 "r0"
          (fun n => match n with
                    | O => mkAttempt ["ab"] (Some Sample.boom) 5 "r1"
                    | S _ => mkAttempt [] None 9 "r2"
                    end)))
    = Some "".
Proof. split; reflexivity. Qed.

Lemma trimHistory_history c maxMessages :
  conversationHistory (trimHistory c maxMessages)
    = if Z.of_nat (List.length (conversationHistory c)) >? maxMessages
      then JS.sliceFrom (conversationHistory c) (- maxMessages)
      else conversationHistory c.
Proof. unfold trimHistory. destruct (_ >? _); reflexivity. Qed.

(** With a positive bound [trimHistory] leaves the latest entries, as
    many as the bound allows. *)
Lemma trimHistory_lastN c maxMessages :
  0 < maxMessages ->
  conversationHistory (trimHistory c maxMessages)
    = Observed.lastN (Z.to_nat maxMessages) (conversationHistory c).
Proof.
  intros Hpos. rewrite trimHistory_history.
  destruct (Z.gtb_spec (Z.of_nat (List.length (conversationHistory c)))
              maxMessages) as [Hgt|Hle].
  - apply SliceFacts.sliceFrom_last; lia.
  - symmetry. apply SliceFacts.lastN_whole. lia.
Qed.

(** X6.  [trimHistory] with a positive bound: the history becomes its latest
    [maxMessages] entries (all of them if there are no more), in their
    order: what is dropped is a prefix, and the configuration stays. *)
Theorem trim_keeps_latest c maxMessages :
  0 < maxMessages ->
  conversationHistory (trimHistory c maxMessages)
    = Observed.lastN (Z.to_nat maxMessages) (conversationHistory c) /\
  Z.of_nat (List.length (conversationHistory (trimHistory c maxMessages)))
    = Z.min maxMessages (Z.of_nat (List.length (conversationHistory c))) /\
  firstn (List.length (conversationHistory c) - Z.to_nat maxMessages)
      (conversationHistory c)
    ++ conversationHistory (trimHistory c maxMessages)
    = conversationHistory c /\
  sameConfig c (trimHistory c maxMessages).
Proof.
  intros Hpos. rewrite (trimHistory_lastN c maxMessages Hpos).
  split; [reflexivity|]. split; [|split].
  - rewrite SliceFacts.lastN_length. lia.
  - apply SliceFacts.lastN_suffix.
  - unfold sameConfig, trimHistory. destruct (_ >? _); repeat split.
Qed.

Lemma trim_keeps_latest_witness :
  0 < 1 /\
  conversationHistory
    (trimHistory
       (client_of (sendMessage Sample.client Sample.streamed 1 "r0" Sample.up)) 1)
    = Observed.lastN (Z.to_nat 1)
        (conversationHistory
           (client_of (sendMessage Sample.client Sample.streamed 1 "r0" Sample.up))) /\
  Z.of_nat (List.length (conversationHistory
    (trimHistory
       (client_of (sendMessage Sample.client Sample.streamed 1 "r0" Sample.up)) 1)))
    = Z.min 1 (Z.of_nat (List.length (conversationHistory
        (client_of (sendMessage Sample.client Sample.streamed 1 "r0" Sample.up))))) /\
  firstn (List.length (conversationHistory
            (client_of (sendMessage Sample.client Sample.streamed 1 "r0" Sample.up)))
          - Z.to_nat 1)
      (conversationHistory
         (client_of (sendMessage Sample.client Sample.streamed 1 "r0" Sample.up)))
    ++ conversationHistory
         (trimHistory
            (client_of (sendMessage Sample.client Sample.streamed 1 "r0" Sample.up)) 1)
    = conversationHistory
        (client_of (sendMessage Sample.client Sample.streamed 1 "r0" Sample.up)) /\
  sameConfig
    (client_of (sendMessage Sample.client Sample.streamed 1 "r0" Sample.up))
    (trimHistory
       (client_of (sendMessage Sample.client Sample.streamed 1 "r0" Sample.up)) 1).
Proof.
  split; [lia|].
  apply (trim_keeps_latest
           (client_of (sendMessage Sample.client Sample.streamed 1 "r0" Sample.up))
           1).
  lia.
Defined.

(** X7.  [trimHistory] with a bound at or below zero keeps no bound:
    [trimHistory(0)] leaves the whole history in place, and
    [trimHistory(-k)] drops the [k] oldest entries. *)
Theorem trim_without_positive_bound c maxMessages :
  maxMessages <= 0 ->
  conversationHistory (trimHistory c maxMessages)
    = skipn (Z.to_nat (- maxMessages)) (conversationHistory c).
Proof.
  intros Hle. rewrite trimHistory_history.
  destruct (Z.gtb_spec (Z.of_nat (List.length (conversationHistory c)))
              maxMessages) as [Hgt|Hno].
  - apply SliceFacts.sliceFrom_drop. lia.
  - destruct (conversationHistory c) as [|m l]; [|cbn [List.length] in Hno; lia].
    now rewrite skipn_nil.
Qed.

Lemma trim_without_positive_bound_witness :
  0 <= 0 /\
  conversationHistory
    (trimHistory
       (client_of (sendMessage Sample.client Sample.streamed 1 "r0" Sample.up)) 0)
    = skipn (Z.to_nat (- 0))
        (conversationHistory
           (client_of (sendMessage Sample.client Sample.streamed 1 "r0" Sample.up))).
Proof.
  split; [lia|].
  apply (trim_without_positive_bound
           (client_of (sendMessage Sample.client Sample.streamed 1 "r0" Sample.up))
           0).
  lia.
Defined.

(** X4.  The shape of a response: it always carries the id made for the
    call; when the call succeeds it carries the text and the time it
    took and no error, and when it fails it carries the fallback
    message as its error and neither text nor time. *)
Theorem response_shape c options now digits remote :
  r_messageId (result_of (sendMessage c options now digits remote))
    = Some (generateMessageId now digits) /\
  JS.defined (r_message (result_of (sendMessage c options now digits remote)))
    = success (result_of (sendMessage c options now digits remote)) /\
  JS.defined (r_processTime (result_of (sendMessage c options now digits remote)))
    = success (result_of (sendMessage c options now digits remote)) /\
  r_error (result_of (sendMessage c options now digits remote))
    = (if success (result_of (sendMessage c options now digits remote))
       then None else Some (fallbackMessage c)).
Proof.
  destruct (fails_or_succeeds c remote) as [Hfail|(j & Hok)].
  - destruct (sendMessage_fails c options now digits remote Hfail)
      as (tr & -> & _). repeat split.
  - destruct (sendMessage_succeeds c options now digits remote j Hok)
      as (tr & -> & _). repeat split.
Qed.

Lemma backoff_total (n : nat) :
  2 * Observed.total (backoff 0 n) = 1000 * Z.of_nat n * (Z.of_nat n - 1).
Proof.
  unfold backoff, Observed.total.
  destruct n as [|n]; [reflexivity|].
  replace (S n - 1)%nat with n by lia.
  induction n as [|n IH]; [reflexivity|].
  rewrite seq_S, map_app, fold_right_app. cbn [map fold_right].
  assert (forall l z, fold_right Z.add z l = fold_right Z.add 0 l + z) as Hacc.
  { induction l as [|x l IHl]; intros z; cbn [fold_right]; [lia|].
    rewrite (IHl z). lia. }
  rewrite Hacc. lia.
Qed.

(** X5.  A call whose attempts all throw has waited, by the time it returns
    the fallback, 1000 ms for every pair of attempts it was allowed:
    with [errorHandling.retries] at n the waits add up to
    500 n (n - 1) ms (three seconds with the three attempts of the
    hook), and there is no wait after the last attempt. *)
Theorem persistent_failure_waits c options now digits remote :
  FailsThroughout c remote ->
  2 * Observed.total
        (Trace.delays (trace_of (sendMessage c options now digits remote)))
    = 1000 * Z.max 0 (retries c) * (Z.max 0 (retries c) - 1) /\
  exists before error,
    trace_of (sendMessage c options now digits remote)
      = (if retries c >? 0 then before ++ [ConsoleError error] else []).
Proof.
  intros Hfail.
  destruct (sendMessage_fails c options now digits remote Hfail)
    as (tr & Hrun & _ & Hd & _).
  split.
  - rewrite Hrun. cbn [trace_of fst snd]. rewrite Hd, backoff_total.
    unfold allowed. lia.
  - clear tr Hrun Hd. rewrite sendMessage_unfold.
    remember (recorded c (entryOf options now digits)) as c0 eqn:Hc0.
    assert (retries c0 = retries c) as Hr by (subst c0; apply recorded_retries).
    assert (forall left k c1,
              left = Z.to_nat (retries c1 - k) -> 0 <= k ->
              retries c1 = retries c ->
              (forall i, (i < left)%nat ->
                 fault (remote (Z.to_nat k + i)%nat) <> None) ->
              exists before error,
                trace_of (attempts left k c1 options
                            (generateMessageId now digits) now remote)
                  = (if (0 <? left)%nat then before ++ [ConsoleError error]
                     else [])) as Hloop.
    { induction left as [|left IH]; intros k c1 Hleft Hpos Hsame Hthrows.
      - exists [], Sample.boom. reflexivity.
      - cbn [attempts Nat.ltb Nat.leb].
        destruct (fault (remote (Z.to_nat k))) as [error|] eqn:Hf.
        2:{ exfalso. apply (Hthrows 0%nat); [lia|]. now rewrite Nat.add_0_r. }
        destruct (tryOnce_throws c1 options (generateMessageId now digits)
                    now _ error Hf) as (done & -> & _).
        rewrite Z.geb_leb.
        destruct (Z.leb_spec (retries c1) (k + 1)) as [Hge|Hlt].
        + exists done, error. reflexivity.
        + destruct (IH (k + 1) c1) as (before & error' & Hrest);
            [lia | lia | assumption | |].
          { intros i Hi. replace (Z.to_nat (k + 1) + i)%nat
              with (Z.to_nat k + S i)%nat by lia. apply Hthrows. lia. }
          destruct (attempts left (k + 1) c1 options _ now remote)
            as [[c2 later] response].
          cbn [trace_of fst snd] in *.
          destruct left as [|left']; [lia|]. cbn [Nat.ltb Nat.leb] in Hrest.
          exists (done ++ Delay (1000 * (k + 1)) :: before), error'.
          rewrite Hrest, <- app_assoc. reflexivity. }
    destruct (Hloop (allowed c) 0 c0) as (before & error & Htrace).
    + unfold allowed. rewrite Hr. lia.
    + lia.
    + exact Hr.
    + intros i Hi. now apply Hfail.
    + exists before, error. rewrite Htrace. unfold allowed.
      destruct (Z.gtb_spec (retries c) 0) as [Hgt|Hle];
        destruct (Nat.ltb_spec 0 (Z.to_nat (retries c))); try reflexivity; lia.
Qed.

Lemma persistent_failure_waits_witness :
  FailsThroughout Sample.client Sample.down /\
  2 * Observed.total
        (Trace.delays
           (trace_of (sendMessage Sample.client Sample.streamed 1 "r0" Sample.down)))
    = 1000 * Z.max 0 (retries Sample.client)
        * (Z.max 0 (retries Sample.client) - 1) /\
  exists before error,
    trace_of (sendMessage Sample.client Sample.streamed 1 "r0" Sample.down)
      = (if retries Sample.client >? 0 then before ++ [ConsoleError error]
         else []).
Proof.
  split; [intros n _; vm_compute; discriminate|].
  apply (persistent_failure_waits Sample.client Sample.streamed 1 "r0"
           Sample.down).
  intros n _; vm_compute; discriminate.
Defined.

(** X8.  The chat session is restarted by [trimHistory] only when it cuts:
    then it is seeded with exactly the entries kept, assistant
    entries as [model] and all others, system entries too, as [user]
    (with nothing when [messageHistory] is off); otherwise the session
    is left running.  A call of [sendMessage] never restarts it. *)
Theorem trim_restarts_the_session c maxMessages options now digits remote :
  0 < maxMessages ->
  chat (trimHistory c maxMessages)
    = (if Z.of_nat (List.length (conversationHistory c)) >? maxMessages
       then if messageHistory c
            then map Observed.seedOf
                   (Observed.lastN (Z.to_nat maxMessages) (conversationHistory c))
            else []
       else chat c) /\
  chat (client_of (sendMessage c options now digits remote)) = chat c.
Proof.
  intros Hpos. split.
  - unfold trimHistory.
    destruct (Z.gtb_spec (Z.of_nat (List.length (conversationHistory c)))
                maxMessages) as [Hgt|Hle]; [|reflexivity].
    unfold initializeChat. cbn [chat messageHistory setHistory conversationHistory].
    rewrite SliceFacts.sliceFrom_last by lia. reflexivity.
  - assert (forall c1 m, chat (recorded c1 m) = chat c1) as Hkeep.
    { intros c1 m. unfold recorded. destruct (messageHistory c1); reflexivity. }
    destruct (fails_or_succeeds c remote) as [Hfail|(j & Hok)].
    + destruct (sendMessage_fails c options now digits remote Hfail)
        as (tr & -> & _). apply Hkeep.
    + destruct (sendMessage_succeeds c options now digits remote j Hok)
        as (tr & -> & _). cbn [client_of fst]. now rewrite !Hkeep.
Qed.

Lemma trim_restarts_the_session_witness :
  0 < 1 /\
  chat (trimHistory
          (client_of (sendMessage Sample.client Sample.streamed 1 "r0" Sample.up))
          1)
    = (if Z.of_nat (List.length (conversationHistory
           (client_of (sendMessage Sample.client Sample.streamed 1 "r0" Sample.up))))
          >? 1
       then if messageHistory
                 (client_of (sendMessage Sample.client Sample.streamed 1 "r0" Sample.up))
            then map Observed.seedOf
                   (Observed.lastN (Z.to_nat 1)
                      (conversationHistory
                         (client_of (sendMessage Sample.client Sample.streamed
                                       1 "r0" Sample.up))))
            else []
       else chat (client_of (sendMessage Sample.client Sample.streamed 1 "r0"
                               Sample.up))) /\
  chat (client_of
          (sendMessage
             (client_of (sendMessage Sample.client Sample.streamed 1 "r0" Sample.up))
             Sample.streamed 2 "r1" Sample.flaky))
    = chat (client_of (sendMessage Sample.client Sample.streamed 1 "r0" Sample.up)).
Proof.
  split; [lia|].
  apply (trim_restarts_the_session
           (client_of (sendMessage Sample.client Sample.streamed 1 "r0" Sample.up))
           1 Sample.streamed 2 "r1" Sample.flaky).
  lia.
Defined.

End ClientExtras.

(** ** The session, beyond a single turn *)

Module SessionExtras.

Import UseGeminiChat Session SessionFacts.

(** The client the hook holds after a turn is the client as the call
    left it. *)
Lemma turn_client options h text now digits remote finished :
  JS.trim text <> "" ->
  chatRef (sendMessage options h text now digits remote finished)
    = Some (Attempts.client_of (runOf options h text now digits remote)).
Proof.
  intros Hn.
  rewrite (sendMessage_spelled options h text now digits remote finished Hn).
  now rewrite resolved_chatRef, deliver_chatRef.
Qed.

(** A turn whose attempts all throw commits the user message alone. *)
Lemma turn_fails options h text now digits remote finished :
  JS.trim text <> "" ->
  OwnClient h ->
  Call.FailsThroughout (clientOf h) remote ->
  messages (state (sendMessage options h text now digits remote finished))
    = messages (state h) ++ [submitted text now].
Proof.
  intros Hn Hown Hfail.
  rewrite (sendMessage_spelled options h text now digits remote finished Hn).
  unfold runOf.
  destruct (CallFacts.sendMessage_fails (clientOf h) (callOf options text)
              now digits remote Hfail) as (tr & -> & _ & _ & Hk & _).
  cbn [Attempts.trace_of Attempts.client_of Attempts.result_of fst snd].
  unfold sendMessage_resolved. cbn [success].
  rewrite andb_false_r. cbn [negb setState state messages].
  rewrite deliver_messages, Hk. cbn [map state setChat].
  now rewrite app_nil_r, (issue_messages options h text now Hn).
Qed.

Lemma own_allows_three h :
  OwnClient h -> Call.allowed (clientOf h) = 3%nat.
Proof.
  intros Hown. destruct (clientOf_own h Hown) as (_ & Hr & _).
  unfold Call.allowed. now rewrite Hr.
Qed.

Lemma find_append {A} (p : A -> bool) (l l' : list A) :
  find p (l ++ l')
    = match find p l with
      | Some x => Some x
      | None => find p l'
      end.
Proof.
  induction l as [|x l IH]; cbn; [reflexivity|].
  destruct (p x); [reflexivity | exact IH].
Qed.

(** What the error of the state is after a run was delivered: the
    message of the last error told that was not an abort, or what it
    was before. *)
Lemma deliver_error now tr : forall h,
  error (state (fold_left (deliver now) tr h))
    = match Observed.lastShown (Trace.errors tr) with
      | Some e => Some (JS.message e)
      | None => error (state h)
      end.
Proof.
  unfold Observed.lastShown.
  induction tr as [|e tr IH]; intros h; cbn [fold_left]; [reflexivity|].
  rewrite IH.
  replace (Trace.errors (e :: tr)) with (Trace.errors [e] ++ Trace.errors tr)
    by (now rewrite <- errors_app).
  rewrite rev_app_distr, find_append.
  destruct (find _ (rev (Trace.errors tr))); [reflexivity|].
  destruct e; cbn; try reflexivity.
  unfold onError. destruct (negb _); reflexivity.
Qed.

(** The errors a call that succeeds at attempt [j] told the hook. *)
Lemma told_errors options h text now digits remote j :
  streaming options = true ->
  Call.SucceedsAt (clientOf h) remote j ->
  Trace.errors (Attempts.trace_of (runOf options h text now digits remote))
    = Observed.thrownBy remote (S j).
Proof.
  intros Hs Hok. unfold runOf.
  change Trace.errors with (flat_map Observed.errorOf).
  rewrite (RunFacts.sendMessage_succeeds_read Observed.errorOf (clientOf h)
             (callOf options text) now digits remote j
             (fun _ => eq_refl) (fun _ => eq_refl) Hok).
  apply flat_map_ext. intros i. rewrite RunFacts.steps_errors.
  rewrite (reaches_callOf options text has_onError eq_refl), Hs.
  reflexivity.
Qed.

(** X9.  In one turn the sequence on screen and the history mirror grow
    alike: whatever the model does, both gain the user message and,
    exactly when the call succeeds, one assistant message, and the two
    copies read the same (same roles, same contents). *)
Theorem screen_and_mirror_grow_alike
    options h text now digits remote finished :
  JS.trim text <> "" ->
  OwnClient h ->
  exists reply mirrored,
    messages (state (sendMessage options h text now digits remote finished))
      = messages (state h)
          ++ submitted text now
             :: (if success (Attempts.result_of
                               (runOf options h text now digits remote))
                 then [reply] else []) /\
    option_map ChatInterface.conversationHistory
      (chatRef (sendMessage options h text now digits remote finished))
      = Some (ChatInterface.conversationHistory (clientOf h)
                ++ Call.entryOf (callOf options text) now digits
                   :: (if success (Attempts.result_of
                                     (runOf options h text now digits remote))
                       then [mirrored] else [])) /\
    Observed.shown (Call.entryOf (callOf options text) now digits)
      = Observed.shown (submitted text now) /\
    Observed.shown mirrored = Observed.shown reply /\
    role reply = assistant.
Proof.
  intros Hn Hown.
  destruct (clientOf_own h Hown) as (Hm & Hr & Hfb).
  rewrite (turn_client options h text now digits remote finished Hn).
  cbn [option_map].
  destruct (CallFacts.fails_or_succeeds (clientOf h) remote)
    as [Hfail|(j & Hok)].
  - rewrite (turn_fails options h text now digits remote finished Hn Hown Hfail).
    unfold runOf.
    destruct (CallFacts.sendMessage_fails (clientOf h) (callOf options text)
                now digits remote Hfail) as (tr & -> & _).
    cbn [Attempts.client_of Attempts.result_of fst snd success].
    rewrite CallFacts.recorded_history, Hm.
    exists (committed "" 0), (committed "" 0). repeat split.
  - pose proof Hok as (Hj & Hbefore & Hfine).
    rewrite (own_allows_three h Hown) in Hj.
    destruct (turn_succeeds options h text now digits remote finished j
                Hn Hown Hj Hbefore Hfine) as (reply & Hrole & Hcontent & ->).
    unfold runOf.
    destruct (CallFacts.sendMessage_succeeds (clientOf h) (callOf options text)
                now digits remote j Hok) as (tr & -> & _).
    cbn [Attempts.client_of Attempts.result_of fst snd success Call.answer].
    rewrite !CallFacts.recorded_history.
    destruct (RetryFacts.recorded_config (clientOf h)
                (Call.entryOf (callOf options text) now digits)) as (-> & _).
    rewrite Hm, <- app_assoc.
    exists reply, (Attempts.replyOf (remote j)). repeat split; try assumption.
    unfold Observed.shown. rewrite Hrole, Hcontent. reflexivity.
Qed.

Lemma screen_and_mirror_grow_alike_witness :
  JS.trim "hi" <> "" /\
  OwnClient initial /\
  exists reply mirrored,
    messages (state (sendMessage Sample.live initial "hi" 1 "r0" Sample.flaky 20))
      = messages (state initial)
          ++ submitted "hi" 1
             :: (if success (Attempts.result_of
                               (runOf Sample.live initial "hi" 1 "r0" Sample.flaky))
                 then [reply] else []) /\
    option_map ChatInterface.conversationHistory
      (chatRef (sendMessage Sample.live initial "hi" 1 "r0" Sample.flaky 20))
      = Some (ChatInterface.conversationHistory (clientOf initial)
                ++ Call.entryOf (callOf Sample.live "hi") 1 "r0"
                   :: (if success (Attempts.result_of
                                     (runOf Sample.live initial "hi" 1 "r0"
                                        Sample.flaky))
                       then [mirrored] else [])) /\
    Observed.shown (Call.entryOf (callOf Sample.live "hi") 1 "r0")
      = Observed.shown (submitted "hi" 1) /\
    Observed.shown mirrored = Observed.shown reply /\
    role reply = assistant.
Proof.
  split; [vm_compute; discriminate|]. split; [exact I|].
  apply (screen_and_mirror_grow_alike
           Sample.live initial "hi" 1 "r0" Sample.flaky 20).
  - vm_compute; discriminate.
  - exact I.
Defined.

(** X10.  The completion callback leaves [error] alone.  So after a turn that
    succeeds, [error] is empty if the first attempt succeeded or
    streaming is off; with streaming on and earlier attempts that
    threw, it still holds the message of the last error thrown that was
    not an abort, next to the committed reply. *)
Theorem retried_success_keeps_raw_error
    options h text now digits remote finished j :
  JS.trim text <> "" ->
  OwnClient h ->
  (j < 3)%nat ->
  (forall i, (i < j)%nat -> fault (remote i) <> None) ->
  fault (remote j) = None ->
  error (state (sendMessage options h text now digits remote finished))
    = if streaming options
      then option_map JS.message
             (Observed.lastShown (Observed.thrownBy remote (S j)))
      else None.
Proof.
  intros Hn Hown Hj Hbefore Hfine.
  assert (Call.SucceedsAt (clientOf h) remote j) as Hok.
  { unfold Call.SucceedsAt. rewrite (own_allows_three h Hown). auto. }
  rewrite (sendMessage_spelled options h text now digits remote finished Hn).
  assert (success (Attempts.result_of (runOf options h text now digits remote))
          = true) as Hsucc.
  { unfold runOf.
    destruct (CallFacts.sendMessage_succeeds (clientOf h) (callOf options text)
                now digits remote j Hok) as (tr & -> & _). reflexivity. }
  assert (error (state (fst (sendMessage_issue options h text now))) = None)
    as Hcleared.
  { unfold sendMessage_issue. rewrite (trim_truthy text Hn). reflexivity. }
  unfold sendMessage_resolved. rewrite Hsucc. cbn [negb].
  destruct (streaming options) eqn:Hs; cbn [negb andb].
  - rewrite deliver_error.
    rewrite (told_errors options h text now digits remote j Hs Hok).
    cbn [state setChat]. rewrite Hcleared.
    destruct (Observed.lastShown _); reflexivity.
  - cbn [setState state error]. rewrite deliver_error.
    unfold runOf.
    change Trace.errors with (flat_map Observed.errorOf).
    rewrite (RunFacts.sendMessage_succeeds_read Observed.errorOf (clientOf h)
               (callOf options text) now digits remote j
               (fun _ => eq_refl) (fun _ => eq_refl) Hok).
    rewrite (RunFacts.flat_map_none
               (fun i => flat_map Observed.errorOf
                           (Observed.stepsOf (callOf options text) (remote i)))).
    + cbn [state setChat]. exact Hcleared.
    + intros i. rewrite RunFacts.steps_errors.
      rewrite (reaches_callOf options text has_onError eq_refl), Hs.
      destruct (fault (remote i)); reflexivity.
Qed.

Lemma retried_success_keeps_raw_error_witness :
  JS.trim "hi" <> "" /\
  OwnClient initial /\
  (1 < 3)%nat /\
  (forall i, (i < 1)%nat -> fault (Sample.flaky i) <> None) /\
  fault (Sample.flaky 1%nat) = None /\
  error (state (sendMessage Sample.live initial "hi" 1 "r0" Sample.flaky 20))
    = if streaming Sample.live
      then option_map JS.message
             (Observed.lastShown (Observed.thrownBy Sample.flaky 2))
      else None.
Proof.
  assert (forall i, (i < 1)%nat -> fault (Sample.flaky i) <> None) as Hb.
  { intros i Hi. destruct i; [vm_compute; discriminate | lia]. }
  split; [vm_compute; discriminate|]. split; [exact I|].
  split; [lia|]. split; [exact Hb|]. split; [reflexivity|].
  apply (retried_success_keeps_raw_error
           Sample.live initial "hi" 1 "r0" Sample.flaky 20 1%nat).
  - vm_compute; discriminate.
  - exact I.
  - lia.
  - exact Hb.
  - reflexivity.
Defined.

Lemma orElse_call_id now digits d :
  JS.orElse (Some (ChatInterface.generateMessageId now digits)) d
    = ChatInterface.generateMessageId now digits.
Proof. reflexivity. Qed.

(** X11.  With streaming off, a turn that succeeds commits one assistant
    message built from the response: its content is the text of the
    attempt that ended normally, and its id is the id the client made
    for the call, which is also the id of the user entry of the call in
    the history mirror. *)
Theorem blocking_reply_carries_call_id
    options h text now digits remote finished j :
  streaming options = false ->
  JS.trim text <> "" ->
  OwnClient h ->
  (j < 3)%nat ->
  (forall i, (i < j)%nat -> fault (remote i) <> None) ->
  fault (remote j) = None ->
  messages (state (sendMessage options h text now digits remote finished))
    = messages (state h)
        ++ [submitted text now;
            mkMessage assistant (Attempts.textOf (remote j)) finished
              (ChatInterface.generateMessageId now digits)] /\
  messageId (Call.entryOf (callOf options text) now digits)
    = ChatInterface.generateMessageId now digits.
Proof.
  intros Hs Hn Hown Hj Hbefore Hfine. split; [|reflexivity].
  assert (Call.SucceedsAt (clientOf h) remote j) as Hok.
  { unfold Call.SucceedsAt. rewrite (own_allows_three h Hown). auto. }
  rewrite (sendMessage_spelled options h text now digits remote finished Hn).
  unfold runOf.
  destruct (CallFacts.sendMessage_succeeds (clientOf h) (callOf options text)
              now digits remote j Hok) as (tr & -> & _ & _ & Hk & _).
  rewrite (reaches_callOf options text has_onComplete eq_refl), Hs in Hk.
  cbn [Attempts.trace_of Attempts.client_of Attempts.result_of fst snd].
  unfold sendMessage_resolved, Call.answer.
  cbn [success r_message r_messageId]. rewrite Hs. cbn [negb andb].
  cbn [setState state messages].
  rewrite deliver_messages, Hk. cbn [map state setChat].
  rewrite app_nil_r, (issue_messages options h text now Hn), <- app_assoc.
  now rewrite orElse_empty, orElse_call_id.
Qed.

Lemma blocking_reply_carries_call_id_witness :
  streaming Sample.blocking = false /\
  JS.trim "hi" <> "" /\
  OwnClient initial /\
  (0 < 3)%nat /\
  (forall i, (i < 0)%nat -> fault (Sample.up i) <> None) /\
  fault (Sample.up 0%nat) = None /\
  messages (state (sendMessage Sample.blocking initial "hi" 1 "r0" Sample.up 20))
    = messages (state initial)
        ++ [submitted "hi" 1;
            mkMessage assistant (Attempts.textOf (Sample.up 0%nat)) 20
              (ChatInterface.generateMessageId 1 "r0")] /\
  messageId (Call.entryOf (callOf Sample.blocking "hi") 1 "r0")
    = ChatInterface.generateMessageId 1 "r0".
Proof.
  assert (forall i, (i < 0)%nat -> fault (Sample.up i) <> None) as Hb
    by (intros i Hi; lia).
  split; [reflexivity|]. split; [vm_compute; discriminate|].
  split; [exact I|]. split; [lia|]. split; [exact Hb|]. split; [reflexivity|].
  apply (blocking_reply_carries_call_id
           Sample.blocking initial "hi" 1 "r0" Sample.up 20 0%nat).
  - reflexivity.
  - vm_compute; discriminate.
  - exact I.
  - lia.
  - exact Hb.
  - reflexivity.
Defined.

Lemma cleared_client h :
  ChatInterface.conversationHistory (clientOf (clearConversation h)) = [].
Proof.
  unfold clientOf, clearConversation. cbn [setState chatRef].
  destruct (chatRef h) as [c|] eqn:Hc; cbn; [reflexivity|].
  now rewrite Hc.
Qed.

(** X12.  [clearConversation] puts the state back to the initial one and
    empties the history mirror and the seed of the chat session; the
    turn after it starts afresh: when it succeeds, the sequence and the
    mirror both read exactly the new question and its answer. *)
Theorem clear_then_turn_starts_afresh
    options h text now digits remote finished j :
  JS.trim text <> "" ->
  OwnClient h ->
  (j < 3)%nat ->
  (forall i, (i < j)%nat -> fault (remote i) <> None) ->
  fault (remote j) = None ->
  state (clearConversation h) = initialState /\
  option_map ChatInterface.conversationHistory (chatRef (clearConversation h))
    = option_map (fun _ => []) (chatRef h) /\
  option_map ChatInterface.chat (chatRef (clearConversation h))
    = option_map (fun _ => []) (chatRef h) /\
  map Observed.shown
    (messages (state (sendMessage options (clearConversation h) text now digits
                        remote finished)))
    = [(user, text); (assistant, Attempts.textOf (remote j))] /\
  option_map (fun c => map Observed.shown (ChatInterface.conversationHistory c))
    (chatRef (sendMessage options (clearConversation h) text now digits
                remote finished))
    = Some [(user, text); (assistant, Attempts.textOf (remote j))].
Proof.
  intros Hn Hown Hj Hbefore Hfine.
  assert (OwnClient (clearConversation h)) as Hown'
    by exact (step_own options h Clear Hown).
  assert (Call.SucceedsAt (clientOf (clearConversation h)) remote j) as Hok.
  { unfold Call.SucceedsAt. rewrite (own_allows_three _ Hown'). auto. }
  split; [|split; [|split; [|split]]].
  - unfold clearConversation. cbn [setState chatRef].
    destruct (chatRef h); reflexivity.
  - unfold clearConversation. cbn [setState chatRef].
    destruct (chatRef h) as [c|] eqn:Hc; cbn; [reflexivity | now rewrite Hc].
  - unfold clearConversation. cbn [setState chatRef].
    destruct (chatRef h) as [c|] eqn:Hc; cbn; [|now rewrite Hc].
    destruct (ChatInterface.messageHistory c); reflexivity.
  - destruct (turn_succeeds options (clearConversation h) text now digits
                remote finished j Hn Hown' Hj Hbefore Hfine)
      as (reply & Hrole & Hcontent & ->).
    assert (messages (state (clearConversation h)) = []) as ->.
    { unfold clearConversation. cbn [setState chatRef].
      destruct (chatRef h); reflexivity. }
    cbn [app map]. unfold Observed.shown at 2. now rewrite Hrole, Hcontent.
  - rewrite (turn_client options (clearConversation h) text now digits remote
               finished Hn).
    cbn [option_map]. unfold runOf.
    destruct (CallFacts.sendMessage_succeeds (clientOf (clearConversation h))
                (callOf options text) now digits remote j Hok) as (tr & -> & _).
    cbn [Attempts.client_of fst].
    destruct (clientOf_own _ Hown') as (Hm & _).
    rewrite !CallFacts.recorded_history, cleared_client.
    destruct (RetryFacts.recorded_config (clientOf (clearConversation h))
                (Call.entryOf (callOf options text) now digits)) as (-> & _).
    rewrite Hm. reflexivity.
Qed.

Lemma clear_then_turn_starts_afresh_witness :
  JS.trim "next" <> "" /\
  OwnClient Observed.afterFailure /\
  (0 < 3)%nat /\
  (forall i, (i < 0)%nat -> fault (Sample.up i) <> None) /\
  fault (Sample.up 0%nat) = None /\
  state (clearConversation Observed.afterFailure) = initialState /\
  option_map ChatInterface.conversationHistory
    (chatRef (clearConversation Observed.afterFailure))
    = option_map (fun _ => []) (chatRef Observed.afterFailure) /\
  option_map ChatInterface.chat
    (chatRef (clearConversation Observed.afterFailure))
    = option_map (fun _ => []) (chatRef Observed.afterFailure) /\
  map Observed.shown
    (messages (state (sendMessage Sample.live
                        (clearConversation Observed.afterFailure)
                        "next" 30 "r3" Sample.up 40)))
    = [(user, "next"); (assistant, Attempts.textOf (Sample.up 0%nat))] /\
  option_map (fun c => map Observed.shown (ChatInterface.conversationHistory c))
    (chatRef (sendMessage Sample.live
                (clearConversation Observed.afterFailure)
                "next" 30 "r3" Sample.up 40))
    = Some [(user, "next"); (assistant, Attempts.textOf (Sample.up 0%nat))].
Proof.
  assert (forall i, (i < 0)%nat -> fault (Sample.up i) <> None) as Hb
    by (intros i Hi; lia).
  assert (OwnClient Observed.afterFailure) as Hown
    by (vm_compute; repeat split).
  split; [vm_compute; discriminate|]. split; [exact Hown|].
  split; [lia|]. split; [exact Hb|]. split; [reflexivity|].
  apply (clear_then_turn_starts_afresh Sample.live Observed.afterFailure
           "next" 30 "r3" Sample.up 40 0%nat).
  - vm_compute; discriminate.
  - exact Hown.
  - lia.
  - exact Hb.
  - reflexivity.
Defined.

(** X13.  The hook's [trimHistory]: the bound is [maxHistoryMessages], or 100
    when that is left out or zero.  With a positive bound the sequence
    becomes its latest entries, as many as the bound allows, and the
    rest of the state stays; the history mirror of the client is cut
    to the same bound, but only when the sequence on screen was over
    it. *)
Theorem hook_trim_keeps_latest options h :
  0 < JS.orElseZ (maxHistoryMessages options) 100 ->
  messages (state (trimHistory options h))
    = Observed.lastN (Z.to_nat (JS.orElseZ (maxHistoryMessages options) 100))
        (messages (state h)) /\
  (isLoading (state (trimHistory options h)),
   error (state (trimHistory options h)),
   isStreaming (state (trimHistory options h)),
   currentStreamingMessage (state (trimHistory options h)))
    = (isLoading (state h), error (state h), isStreaming (state h),
       currentStreamingMessage (state h)) /\
  option_map ChatInterface.conversationHistory (chatRef (trimHistory options h))
    = option_map
        (fun c =>
           if Z.of_nat (List.length (messages (state h)))
                >? JS.orElseZ (maxHistoryMessages options) 100
           then Observed.lastN
                  (Z.to_nat (JS.orElseZ (maxHistoryMessages options) 100))
                  (ChatInterface.conversationHistory c)
           else ChatInterface.conversationHistory c)
        (chatRef h).
Proof.
  intros Hpos. unfold trimHistory.
  destruct (Z.gtb_spec (Z.of_nat (List.length (messages (state h))))
              (JS.orElseZ (maxHistoryMessages options) 100)) as [Hgt|Hle].
  - cbn [setState chatRef].
    destruct (chatRef h) as [c|] eqn:Hc.
    + cbn [state setChat setState messages isLoading error isStreaming
        currentStreamingMessage chatRef option_map].
      rewrite SliceFacts.sliceFrom_last by lia.
      split; [reflexivity|]. split; [reflexivity|].
      cbn [option_map]. f_equal.
      apply ClientExtras.trimHistory_lastN. exact Hpos.
    + cbn [state setChat setState messages isLoading error isStreaming
        currentStreamingMessage chatRef option_map].
      rewrite SliceFacts.sliceFrom_last by lia.
      rewrite Hc. repeat split.
  - rewrite SliceFacts.lastN_whole by lia.
    repeat split.
Qed.

Lemma hook_trim_keeps_latest_witness :
  0 < JS.orElseZ (maxHistoryMessages (mkHookOptions (Some true) (Some 1))) 100 /\
  messages (state (trimHistory (mkHookOptions (Some true) (Some 1))
                     Observed.afterAnswer))
    = Observed.lastN
        (Z.to_nat (JS.orElseZ
                     (maxHistoryMessages (mkHookOptions (Some true) (Some 1)))
                     100))
        (messages (state Observed.afterAnswer)) /\
  (isLoading (state (trimHistory (mkHookOptions (Some true) (Some 1))
                       Observed.afterAnswer)),
   error (state (trimHistory (mkHookOptions (Some true) (Some 1))
                   Observed.afterAnswer)),
   isStreaming (state (trimHistory (mkHookOptions (Some true) (Some 1))
                         Observed.afterAnswer)),
   currentStreamingMessage
     (state (trimHistory (mkHookOptions (Some true) (Some 1))
               Observed.afterAnswer)))
    = (isLoading (state Observed.afterAnswer),
       error (state Observed.afterAnswer),
       isStreaming (state Observed.afterAnswer),
       currentStreamingMessage (state Observed.afterAnswer)) /\
  option_map ChatInterface.conversationHistory
    (chatRef (trimHistory (mkHookOptions (Some true) (Some 1))
                Observed.afterAnswer))
    = option_map
        (fun c =>
           if Z.of_nat (List.length (messages (state Observed.afterAnswer)))
                >? JS.orElseZ
                     (maxHistoryMessages (mkHookOptions (Some true) (Some 1)))
                     100
           then Observed.lastN
                  (Z.to_nat (JS.orElseZ
                               (maxHistoryMessages
                                  (mkHookOptions (Some true) (Some 1)))
                               100))
                  (ChatInterface.conversationHistory c)
           else ChatInterface.conversationHistory c)
        (chatRef Observed.afterAnswer).
Proof.
  split; [reflexivity|].
  apply (hook_trim_keeps_latest (mkHookOptions (Some true) (Some 1))
           Observed.afterAnswer).
  reflexivity.
Defined.

(** X14.  [stopStreaming] is idempotent, and it is not an error: it lowers
    both flags and empties the buffer, and leaves the committed
    sequence and [error] as they were. *)
Theorem stop_is_idempotent h :
  stopStreaming (stopStreaming h) = stopStreaming h /\
  messages (state (stopStreaming h)) = messages (state h) /\
  error (state (stopStreaming h)) = error (state h) /\
  isLoading (state (stopStreaming h)) = false /\
  isStreaming (state (stopStreaming h)) = false /\
  currentStreamingMessage (state (stopStreaming h)) = "".
Proof.
  unfold stopStreaming. destruct (abortControllerRef h) eqn:Ha; cbn;
    rewrite ?Ha; repeat split.
Qed.

Lemma no_user_found (l : list ChatMessage) :
  forallb (fun m => negb (isUser m)) l = true ->
  find isUser (rev l) = None.
Proof.
  intros Hall. destruct (find isUser (rev l)) as [m|] eqn:Hfind;
    [|reflexivity].
  apply find_some in Hfind as (Hin & Hu).
  apply in_rev in Hin.
  rewrite forallb_forall in Hall. specialize (Hall m Hin).
  rewrite Hu in Hall. discriminate.
Qed.

(** X15.  [retryLastMessage] in a sequence without a user message (the empty
    sequence among them) does nothing: no call is issued and the hook
    stays as it is. *)
Theorem retry_without_user_message
    options h now digits remote finished :
  forallb (fun m => negb (isUser m)) (messages (state h)) = true ->
  retryLastMessage_issue options h now = (h, None) /\
  retryLastMessage options h now digits remote finished = h.
Proof.
  intros Hall. unfold retryLastMessage_issue, retryLastMessage, lastUserMessage.
  rewrite (no_user_found _ Hall). split; reflexivity.
Qed.

Lemma retry_without_user_message_witness :
  forallb (fun m => negb (isUser m)) (messages (state initial)) = true /\
  retryLastMessage_issue Sample.live initial 1 = (initial, None) /\
  retryLastMessage Sample.live initial 1 "r0" Sample.up 2 = initial.
Proof.
  split; [reflexivity|].
  apply (retry_without_user_message Sample.live initial 1 "r0" Sample.up 2).
  reflexivity.
Defined.

(** X16.  The hook makes its client once, on the first message that is not
    blank, and no event replaces its policy: in every state reachable
    by any sequence of events the client, if there is one, keeps a
    history, allows three attempts and falls back to the configured
    text. *)
Theorem client_policy_is_kept options actions :
  OwnClient (run options initial actions) /\
  (chatRef (run options initial actions) = None \/
   option_map ChatInterface.retries (chatRef (run options initial actions))
     = Some 3).
Proof.
  assert (OwnClient (run options initial actions)) as Hown
    by (apply run_own; exact I).
  split; [exact Hown|].
  unfold OwnClient in Hown.
  destruct (chatRef (run options initial actions)) as [c|]; [right | now left].
  destruct Hown as (_ & Hr & _). cbn. now rewrite Hr.
Qed.

End SessionExtras.

(** ** Message ids *)

Module IdExtras.

Import UseGeminiChat Session.

Lemma show_read (z : Z) :
  option_map Z.of_int (NilZero.int_of_string (JS.show z)) = Some z.
Proof.
  unfold JS.show.
  assert (option_map Z.of_int
            (NilZero.int_of_string (NilZero.string_of_int (Z.to_int z)))
          = Some (Z.of_int (Z.to_int z))) as ->.
  { destruct (Z.to_int z) as [u|u]; destruct u;
      try (rewrite NilZero.isi by discriminate; reflexivity).
    - now rewrite NilZero.isi_posnil.
    - now rewrite NilZero.isi_negnil. }
  now rewrite DecimalZ.of_to.
Qed.

Lemma show_injective (a b : Z) : JS.show a = JS.show b -> a = b.
Proof.
  intros Heq. pose proof (show_read a) as Ha. rewrite Heq, show_read in Ha.
  now injection Ha.
Qed.

(** X17.  The id of a user message is made of the clock alone: two user
    messages bear the same id exactly when they were sent at the same
    clock reading, whatever their contents. *)
Theorem user_ids_follow_the_clock text text' now now' :
  messageId (submitted text now) = messageId (submitted text' now')
  <-> now = now'.
Proof.
  split.
  - cbn [submitted messageId]. intros Heq.
    apply show_injective. cbn in Heq. now injection Heq.
  - intros ->. reflexivity.
Qed.

End IdExtras.

(** ** The PDF service: estimate, file name and page count *)

Module PdfExtras.

Import PDFGenerationService.

Lemma total_from (messages : list ChatMessage) : forall sofar,
  fold_left (fun sum msg => sum + Z.of_nat (String.length (content msg)))
    messages sofar
  = sofar + Observed.totalChars messages.
Proof.
  unfold Observed.totalChars.
  induction messages as [|m messages IH]; intros sofar; cbn [fold_left];
    [lia|].
  rewrite (IH (sofar + _)), (IH (0 + _)). lia.
Qed.

Lemma totalChars_app (a b : list ChatMessage) :
  Observed.totalChars (a ++ b) = Observed.totalChars a + Observed.totalChars b.
Proof.
  unfold Observed.totalChars at 1. rewrite fold_left_app.
  fold (Observed.totalChars a). apply total_from.
Qed.

Lemma totalChars_nonneg (messages : list ChatMessage) :
  0 <= Observed.totalChars messages.
Proof.
  induction messages as [|m messages IH]; [cbn; lia|].
  change (m :: messages) with ([m] ++ messages).
  rewrite totalChars_app. cbn. lia.
Qed.

Lemma ceilDiv_bounds (a b : Z) :
  0 < b -> b * (ceilDiv a b - 1) < a <= b * ceilDiv a b.
Proof.
  intros Hb. unfold ceilDiv.
  pose proof (Z.div_mod (- a) b ltac:(lia)) as Hdm.
  pose proof (Z.mod_pos_bound (- a) b Hb) as Hmod.
  nia.
Qed.

Lemma ceilDiv_monotone (a a' b : Z) :
  0 < b -> a <= a' -> ceilDiv a b <= ceilDiv a' b.
Proof.
  intros Hb Hle.
  pose proof (ceilDiv_bounds a b Hb). pose proof (ceilDiv_bounds a' b Hb).
  nia.
Qed.

Lemma ceilDiv_subadditive (a a' b : Z) :
  0 < b -> ceilDiv (a + a') b <= ceilDiv a b + ceilDiv a' b.
Proof.
  intros Hb.
  pose proof (ceilDiv_bounds a b Hb). pose proof (ceilDiv_bounds a' b Hb).
  pose proof (ceilDiv_bounds (a + a') b Hb).
  nia.
Qed.

Lemma estimate_pages (messages : list ChatMessage) :
  estimatedPages (estimatePDFSize messages)
    = ceilDiv (Observed.totalChars messages) 2500.
Proof. reflexivity. Qed.

(** X18.  The estimate covers the text with less than a page to spare: the
    pages, at 2500 characters each, hold all the characters of the
    messages and one page less would not; no page is estimated exactly
    when the messages hold no character; and the size is quoted as 30
    to 60 KB a page. *)
Theorem estimate_covers_the_text messages :
  2500 * (estimatedPages (estimatePDFSize messages) - 1)
    < Observed.totalChars messages
    <= 2500 * estimatedPages (estimatePDFSize messages) /\
  (estimatedPages (estimatePDFSize messages) = 0
   <-> Observed.totalChars messages = 0) /\
  estimatedSize (estimatePDFSize messages)
    = (JS.show (30 * estimatedPages (estimatePDFSize messages)) ++ "KB - "
         ++ JS.show (60 * estimatedPages (estimatePDFSize messages)) ++ "KB")%string.
Proof.
  rewrite estimate_pages.
  pose proof (ceilDiv_bounds (Observed.totalChars messages) 2500 ltac:(lia)).
  pose proof (totalChars_nonneg messages).
  split; [assumption|]. split; [lia|].
  unfold estimatePDFSize. cbn [estimatedSize].
  fold (Observed.totalChars messages).
  now rewrite !(Z.mul_comm _ (ceilDiv _ _)).
Qed.

(** X19.  The estimate of a longer conversation is never smaller, and never
    more than the estimates of its two parts together. *)
Theorem estimate_of_appended_messages earlier later :
  estimatedPages (estimatePDFSize earlier)
    <= estimatedPages (estimatePDFSize (earlier ++ later))
    <= estimatedPages (estimatePDFSize earlier)
       + estimatedPages (estimatePDFSize later).
Proof.
  rewrite !estimate_pages, totalChars_app.
  pose proof (totalChars_nonneg later).
  split.
  - apply ceilDiv_monotone; lia.
  - apply ceilDiv_subadditive; lia.
Qed.

Lemma clean_unit_safe (c : ascii) :
  Observed.isSafeUnit
    (toLowerCaseUnit (if isAlphanumeric c then c else "-"%char)) = true.
Proof. destruct c as [[] [] [] [] [] [] [] []]; reflexivity. Qed.

Lemma clean_unit_fixed (c : ascii) :
  Observed.isSafeUnit c = true ->
  toLowerCaseUnit (if isAlphanumeric c then c else "-"%char) = c.
Proof.
  destruct c as [[] [] [] [] [] [] [] []]; intros H;
    first [reflexivity | discriminate H].
Qed.

Lemma clean_length (title : string) :
  String.length (toLowerCase (replaceOthers title)) = String.length title.
Proof.
  unfold toLowerCase, replaceOthers.
  induction title as [|c title IH]; cbn; [reflexivity | now rewrite IH].
Qed.

Lemma clean_safe (title : string) :
  Observed.allUnits Observed.isSafeUnit (toLowerCase (replaceOthers title))
    = true.
Proof.
  unfold toLowerCase, replaceOthers.
  induction title as [|c title IH]; cbn [mapUnits Observed.allUnits];
    [reflexivity|].
  now rewrite clean_unit_safe, IH.
Qed.

Lemma clean_fixed (s : string) :
  Observed.allUnits Observed.isSafeUnit s = true ->
  toLowerCase (replaceOthers s) = s.
Proof.
  unfold toLowerCase, replaceOthers.
  induction s as [|c s IH]; cbn [mapUnits Observed.allUnits];
    [reflexivity|].
  intros H. apply andb_true_iff in H as (Hc & Hs).
  now rewrite (clean_unit_fixed c Hc), (IH Hs).
Qed.

(** X20.  The name [generateFilename] makes is the cleaned title, a hyphen,
    the date part of the ISO time and the extension.  The cleaned title
    is as long as the title and made of lower-case letters, digits and
    hyphens only, and cleaning it again changes nothing.  It is the
    name of the file when none, or an empty one, was asked for. *)
Theorem filename_is_clean title iso :
  exists cleanTitle,
    generateFilename title iso
      = (cleanTitle ++ "-" ++ firstField "T"%char iso ++ ".pdf")%string /\
    String.length cleanTitle = String.length title /\
    Observed.allUnits Observed.isSafeUnit cleanTitle = true /\
    generateFilename cleanTitle iso = generateFilename title iso /\
    finalFilename None title iso = generateFilename title iso /\
    finalFilename (Some "") title iso = generateFilename title iso.
Proof.
  exists (toLowerCase (replaceOthers title)).
  split; [reflexivity|]. split; [apply clean_length|].
  split; [apply clean_safe|].
  split; [|split; reflexivity].
  unfold generateFilename. now rewrite (clean_fixed _ (clean_safe title)).
Qed.





End PdfExtras.
